(** * Summarizing Website: the notebook's pipeline, embedded and verified

    The notebook [summarizing_website/Summarizing Website.ipynb] validates an
    API key, fetches a page with [requests], parses it with BeautifulSoup,
    builds a two-message prompt and asks a chat model for a summary.

    The code cells are embedded shallowly:
    - Python [str] values are [string]s (characters are code points below 256),
      with [str.strip], [str.startswith], [str.join] and slicing written out;
    - the BeautifulSoup document is a tree of [PageElement]s, with [find],
      [find_all], [.string], [decompose] and [get_text] following bs4;
    - cells that perform I/O run in a small exception-and-trace monad over a
      [World] that answers the HTTP request and the chat-completion call. *)

From Stdlib Require Import String Ascii List Bool Arith Lia Permutation.
Import ListNotations.
Local Open Scope list_scope.
Local Open Scope string_scope.

Set Implicit Arguments.

(** ** Python strings *)

Module Py.

(** [str.isspace] on one character, for code points below 256: the ASCII
    white space 0x09-0x0d and 0x1c-0x20, NEL (0x85) and NBSP (0xa0). *)
Definition isspace (c : ascii) : bool :=
  let n := nat_of_ascii c in
  (((9 <=? n) && (n <=? 13)) || ((28 <=? n) && (n <=? 32))
   || (n =? 133) || (n =? 160))%nat.

(** [s.lstrip()] *)
Fixpoint lstrip (s : string) : string :=
  match s with
  | EmptyString => EmptyString
  | String c s' => if isspace c then lstrip s' else s
  end.

(** [s.rstrip()] *)
Fixpoint rstrip (s : string) : string :=
  match s with
  | EmptyString => EmptyString
  | String c s' =>
      match rstrip s' with
      | EmptyString => if isspace c then EmptyString else String c EmptyString
      | r => String c r
      end
  end.

(** [s.strip()] *)
Definition strip (s : string) : string := rstrip (lstrip s).

(** [s.startswith(p)] *)
Definition startswith (s p : string) : bool := String.prefix p s.

(** [sep.join(l)] *)
Fixpoint join (sep : string) (l : list string) : string :=
  match l with
  | [] => EmptyString
  | [x] => x
  | x :: l' => x ++ sep ++ join sep l'
  end.

(** [s[i:j]] for [0 <= i <= j] *)
Definition slice (s : string) (i j : nat) : string := String.substring i (j - i) s.

(** [len(s) == 0] *)
Definition is_empty (s : string) : bool :=
  match s with EmptyString => true | _ => false end.

(** A value that is either [None] or a [str], as [os.getenv] and bs4's
    [.string] return; [truthy] is its truth value and [format] what an
    f-string prints for it. *)
Definition truthy (v : option string) : bool :=
  match v with
  | None => false
  | Some s => negb (is_empty s)
  end.

Definition format (v : option string) : string :=
  match v with
  | None => "None"
  | Some s => s
  end.

(** [t in s] *)
Fixpoint in_ (t s : string) : bool :=
  String.prefix t s ||
  match s with
  | EmptyString => false
  | String _ s' => in_ t s'
  end.

(** [t in s] as a proposition *)
Definition contains (s t : string) : Prop :=
  exists pre post, s = pre ++ t ++ post.

End Py.

(** ** Exceptions and outcomes *)

Inductive exception : Type :=
| ValueError (msg : string)
| IndexError
| TypeError
| AttributeError
| LibraryError (name : string).   (* raised inside requests, bs4 or openai *)

Inductive outcome (A : Type) : Type :=
| Return (a : A)
| Raise (e : exception).
Arguments Return {A} a.
Arguments Raise {A} e.

(** ** Cell "Connect to OpenAI API": the key check *)

Definition check_api_key (api_key : option string) : outcome string :=
  if negb (Py.truthy api_key) then
    Raise (ValueError "OPENAI_API_KEY environment variable is not set.")
  else
    match api_key with
    | None => Raise AttributeError   (* None has no startswith; None is falsy *)
    | Some key =>
        if negb (Py.startswith key "sk-") then
          Raise (ValueError "OPENAI_API_KEY must start with 'sk-'.")
        else if negb (Py.strip key =? key) then
          Raise (ValueError
                   "OPENAI_API_KEY must not contain leading or trailing whitespace.")
        else
          Return "OPENAI_API_KEY is set and valid."
    end.

(** ** BeautifulSoup documents *)

Module Bs4.

(** The classes of string nodes bs4 distinguishes. *)
Inductive string_type : Type :=
| NavigableString | CData | Comment | Declaration | Doctype
| ProcessingInstruction | Script | Stylesheet | TemplateString.

(** A node of the parsed document: a tag with its children, or a string node.
    The BeautifulSoup object itself is the tag named "[document]".  Tag
    attributes are left out: the notebook never reads them. *)
Unset Elimination Schemes.
Inductive PageElement : Type :=
| Tag (name : string) (contents : list PageElement)
| Text (type : string_type) (text : string).
Set Elimination Schemes.

Section PageElement_ind.
Variable P : PageElement -> Prop.
Hypothesis P_Tag : forall name contents, Forall P contents -> P (Tag name contents).
Hypothesis P_Text : forall type text, P (Text type text).

Fixpoint PageElement_ind (e : PageElement) : P e :=
  match e with
  | Tag name contents =>
      P_Tag name
        ((fix all (l : list PageElement) : Forall P l :=
            match l with
            | [] => Forall_nil P
            | x :: l' => Forall_cons x (PageElement_ind x) (all l')
            end) contents)
  | Text type text => P_Text type text
  end.
End PageElement_ind.

Definition text_of (e : PageElement) : string :=
  match e with
  | Tag _ _ => EmptyString
  | Text _ s => s
  end.

(** The element followed by everything below it, in document order. *)
Fixpoint self_and_descendants (e : PageElement) : list PageElement :=
  e :: match e with
       | Tag _ contents => flat_map self_and_descendants contents
       | Text _ _ => []
       end.

(** [e.descendants] *)
Definition descendants (e : PageElement) : list PageElement :=
  match e with
  | Tag _ contents => flat_map self_and_descendants contents
  | Text _ _ => []
  end.

(** Does the element match a list of tag names, as [find_all(names)] tests it. *)
Definition matches (names : list string) (e : PageElement) : bool :=
  match e with
  | Tag name _ => existsb (String.eqb name) names
  | Text _ _ => false
  end.

(** [e.find_all(names)], also written [e(names)] *)
Definition find_all (e : PageElement) (names : list string) : list PageElement :=
  filter (matches names) (descendants e).

(** [e.find(name)]; [soup.title] is [soup.find("title")]. *)
Definition find (e : PageElement) (name : string) : option PageElement :=
  hd_error (find_all e [name]).

(** [e.string]: the single string below [e], looking through tags that have
    exactly one child; [None] otherwise. *)
Fixpoint string_ (e : PageElement) : option PageElement :=
  match e with
  | Text _ _ => Some e
  | Tag _ [child] => string_ child
  | Tag _ _ => None
  end.

(** What is left of an element once every tag matching [names] below or at it
    has been decomposed: nothing, or the element with its children treated
    alike. *)
Fixpoint prune (names : list string) (e : PageElement) : list PageElement :=
  match e with
  | Tag name contents =>
      if existsb (String.eqb name) names then []
      else [Tag name (flat_map (prune names) contents)]
  | Text _ _ => [e]
  end.

(** The document after [for t in e(names): t.decompose()].  [find_all] is
    evaluated once, before the loop; [decompose] takes a tag and all below it
    out of the tree, and is harmless on a tag already taken out with an
    ancestor.  The element [e] itself is not among its own descendants.
    The loop itself, on objects with identity, is [Objects.decompose_loop]. *)
Definition decompose_each (e : PageElement) (names : list string) : PageElement :=
  match e with
  | Tag name contents => Tag name (flat_map (prune names) contents)
  | Text _ _ => e
  end.

(** The string classes [get_text] keeps for an HTML document. *)
Definition interesting_string_type (t : string_type) : bool :=
  match t with
  | NavigableString | CData => true
  | _ => false
  end.

(** One step of the generator [_all_strings(strip)]. *)
Definition yield_string (strip : bool) (d : PageElement) : list string :=
  match d with
  | Tag _ _ => []
  | Text type s =>
      if interesting_string_type type then
        if strip then
          let s' := Py.strip s in
          if Py.is_empty s' then [] else [s']
        else [s]
      else []
  end.

Definition _all_strings (e : PageElement) (strip : bool) : list string :=
  flat_map (yield_string strip) (descendants e).

(** [e.get_text(separator, strip)] *)
Definition get_text (e : PageElement) (separator : string) (strip : bool) : string :=
  Py.join separator (_all_strings e strip).

End Bs4.
Import Bs4.

(** ** The document as Python objects

    [find_all] returns references to nodes of the tree and [decompose]
    changes the tree through them.  Here every node carries the identity of
    its object, so that the loop of [Website.__init__] can be run as it is
    written; [Bs4Facts.decompose_loop_erase] shows that, identities
    forgotten, it leaves [Bs4.decompose_each]. *)

Module Objects.

Unset Elimination Schemes.
Inductive Obj : Type :=
| OTag (id : nat) (name : string) (contents : list Obj)
| OText (id : nat) (type : string_type) (text : string).
Set Elimination Schemes.

Section Obj_ind.
Variable P : Obj -> Prop.
Hypothesis P_OTag : forall id name contents, Forall P contents -> P (OTag id name contents).
Hypothesis P_OText : forall id type text, P (OText id type text).

Fixpoint Obj_ind (o : Obj) : P o :=
  match o with
  | OTag id name contents =>
      P_OTag id name
        ((fix all (l : list Obj) : Forall P l :=
            match l with
            | [] => Forall_nil P
            | x :: l' => Forall_cons x (Obj_ind x) (all l')
            end) contents)
  | OText id type text => P_OText id type text
  end.
End Obj_ind.

Definition id_of (o : Obj) : nat :=
  match o with
  | OTag id _ _ => id
  | OText id _ _ => id
  end.

(** The document the objects make up. *)
Fixpoint erase (o : Obj) : PageElement :=
  match o with
  | OTag _ name contents => Tag name (map erase contents)
  | OText _ type text => Text type text
  end.

Fixpoint self_and_descendants (o : Obj) : list Obj :=
  o :: match o with
       | OTag _ _ contents => flat_map self_and_descendants contents
       | OText _ _ _ => []
       end.

Definition descendants (o : Obj) : list Obj :=
  match o with
  | OTag _ _ contents => flat_map self_and_descendants contents
  | OText _ _ _ => []
  end.

(** [o.find_all(names)]: the matching objects themselves. *)
Definition find_all (o : Obj) (names : list string) : list Obj :=
  filter (fun x => matches names (erase x)) (descendants o).

(** What is left of [o] once the objects whose identity satisfies [gone]
    have been taken out of their parents' contents. *)
Fixpoint take_out (gone : nat -> bool) (o : Obj) : list Obj :=
  if gone (id_of o) then []
  else match o with
       | OTag id name contents => [OTag id name (flat_map (take_out gone) contents)]
       | OText _ _ _ => [o]
       end.

(** [t.decompose()], seen from the root of the document: [t] leaves the
    contents of its parent, with all below it; nothing happens to the
    document when [t] is no longer in it. *)
Definition decompose (t : Obj) (root : Obj) : Obj :=
  match root with
  | OTag id name contents =>
      OTag id name (flat_map (take_out (Nat.eqb (id_of t))) contents)
  | OText _ _ _ => root
  end.

(** [for t in root(names): t.decompose()] *)
Definition decompose_loop (root : Obj) (names : list string) : Obj :=
  fold_left (fun r t => decompose t r) (find_all root names) root.

(** No two objects of the document are the same object. *)
Definition distinct_objects (root : Obj) : Prop :=
  NoDup (map id_of (self_and_descendants root)).

(** The objects of a parsed document, numbered in document order from [n]. *)
Fixpoint size (e : PageElement) : nat :=
  match e with
  | Tag _ contents => S (list_sum (map size contents))
  | Text _ _ => 1
  end.

Fixpoint objects_from (n : nat) (e : PageElement) : Obj :=
  match e with
  | Tag name contents =>
      OTag n name
        ((fix all (k : nat) (l : list PageElement) : list Obj :=
            match l with
            | [] => []
            | x :: l' => objects_from k x :: all (k + size x) l'
            end) (S n) contents)
  | Text type text => OText n type text
  end.

(** The children of a tag, numbered one after the other. *)
Fixpoint objects_from_list (k : nat) (l : list PageElement) : list Obj :=
  match l with
  | [] => []
  | x :: l' => objects_from k x :: objects_from_list (k + size x) l'
  end.

Definition objects_of (soup : PageElement) : Obj := objects_from 0 soup.

End Objects.

(** ** Cell "Create a Website class" *)

Definition LF : string := String "010" EmptyString.

Record Website : Type := {
  url : string;
  title : option string;      (* [None] is Python's None *)
  content : string }.

Definition irrelevant_tags : list string := ["script"; "style"; "img"; "input"].

(** The body of [Website.__init__] after the page has been fetched and
    parsed into [soup]. *)
Definition extract (url : string) (soup : PageElement) : Website :=
  let title :=
    match find soup "title" with
    | Some t => option_map text_of (string_ t)
    | None => Some "No title found"
    end in
  let soup := decompose_each soup irrelevant_tags in
  {| url := url; title := title; content := get_text soup (" " ++ LF) true |}.

(** The same lines run on the objects of the document, as Python runs
    them: the title is read off the tree, then the loop changes the tree
    through the references that [find_all] returned, then the text is
    collected from what is left. *)
Module OnObjects.

(** [o.find(name)] *)
Definition find (o : Objects.Obj) (name : string) : option Objects.Obj :=
  hd_error (Objects.find_all o [name]).

(** [o.string] *)
Fixpoint string_ (o : Objects.Obj) : option Objects.Obj :=
  match o with
  | Objects.OText _ _ _ => Some o
  | Objects.OTag _ _ [child] => string_ child
  | Objects.OTag _ _ _ => None
  end.

Definition text_of (o : Objects.Obj) : string :=
  match o with
  | Objects.OTag _ _ _ => EmptyString
  | Objects.OText _ _ s => s
  end.

Definition yield_string (strip : bool) (d : Objects.Obj) : list string :=
  match d with
  | Objects.OTag _ _ _ => []
  | Objects.OText _ type s =>
      if interesting_string_type type then
        if strip then
          let s' := Py.strip s in
          if Py.is_empty s' then [] else [s']
        else [s]
      else []
  end.

Definition _all_strings (o : Objects.Obj) (strip : bool) : list string :=
  flat_map (yield_string strip) (Objects.descendants o).

(** [o.get_text(separator, strip)] *)
Definition get_text (o : Objects.Obj) (separator : string) (strip : bool) : string :=
  Py.join separator (_all_strings o strip).

End OnObjects.

Definition extract_objects (url : string) (soup : Objects.Obj) : Website :=
  let title :=
    match OnObjects.find soup "title" with
    | Some t => option_map OnObjects.text_of (OnObjects.string_ t)
    | None => Some "No title found"
    end in
  let soup := Objects.decompose_loop soup irrelevant_tags in
  {| url := url; title := title;
     content := OnObjects.get_text soup (" " ++ LF) true |}.

(** ** Cell "Create the Prompts" *)

Inductive Role : Type := system | user.

(** The dict [{"role": ..., "content": ...}]. *)
Module Msg.
Record Message : Type := { role : Role; content : string }.
End Msg.
Abbreviation Message := Msg.Message.

Definition system_prompt : string :=
  "You are an assistant that analyzes the contents of a website " ++
  "and provides a short summary, ignoring text that might be navigation related. " ++
  "Respond in markdown.".

Definition user_prompt_for (website : Website) : string :=
  let user_prompt := "You are looking at a website titled " ++ Py.format (title website) in
  let user_prompt := user_prompt ++
    (LF ++ "The contents of this website is as follows; " ++
     "please provide a short summary of this website in markdown. " ++
     "If it includes news or announcements, then summarize these too." ++ LF ++ LF) in
  let user_prompt := user_prompt ++ content website in
  user_prompt.

Definition message_for (website : Website) : list Message :=
  [ {| Msg.role := system; Msg.content := system_prompt |};
    {| Msg.role := user; Msg.content := user_prompt_for website |} ].

(** ** The chat-completion response, as far as the notebook reads it *)

Module OpenAI.
Record ChatCompletionMessage : Type := { content : option string }.
Record Choice : Type := { message : ChatCompletionMessage }.
Record ChatCompletion : Type := { choices : option (list Choice) }.
End OpenAI.

(** [response.choices[0].message.content.strip()] *)
Definition first_choice_stripped (response : OpenAI.ChatCompletion) : outcome string :=
  match OpenAI.choices response with
  | None => Raise TypeError                 (* None is not subscriptable *)
  | Some [] => Raise IndexError             (* list index out of range *)
  | Some (choice :: _) =>
      match OpenAI.content (OpenAI.message choice) with
      | None => Raise AttributeError        (* None has no strip *)
      | Some text => Return (Py.strip text)
      end
  end.

(** ** Running the cells: exceptions and a trace of calls *)

Inductive event : Type :=
| EGet (url : string)                                 (* requests.get(url) *)
| EParse (markup : string)                            (* BeautifulSoup(markup, 'html.parser') *)
| EPrompt (website : Website)                         (* message_for(website) *)
| ECreate (model : string) (messages : list Message)  (* openai.chat.completions.create *)
| EDisplay (markdown : string)                        (* display(Markdown(...)) *)
| EPrint (line : string).                             (* print(...) *)

(** What lies outside the notebook.  The answers of the network may depend on
    everything that happened before the call. *)
Record World : Type := {
  requests_get : list event -> string -> outcome string;
  html_parser : string -> outcome PageElement;
  chat_completions_create :
    list event -> string -> list Message -> outcome OpenAI.ChatCompletion }.

Definition M (A : Type) : Type := list event -> outcome A * list event.

Definition ret {A} (a : A) : M A := fun h => (Return a, h).

Definition bind {A B} (m : M A) (k : A -> M B) : M B :=
  fun h =>
    match m h with
    | (Return a, h') => k a h'
    | (Raise e, h') => (Raise e, h')
    end.

Definition lift {A} (o : outcome A) : M A := fun h => (o, h).

(** Record a call, then take its result from [answer], which sees the trace
    up to the call. *)
Definition call {A} (ev : event) (answer : list event -> outcome A) : M A :=
  fun h => (answer h, (h ++ [ev])%list).

Notation "x <- m ;; k" := (bind m (fun x => k))
  (at level 61, m at next level, right associativity).
Notation "m ;;; k" := (bind m (fun _ => k))
  (at level 61, right associativity).

Section Cells.

Variable W : World.

Definition print (line : string) : M unit :=
  call (EPrint line) (fun _ => Return tt).

Definition display (markdown : string) : M unit :=
  call (EDisplay markdown) (fun _ => Return tt).

(** [Website(url)] *)
Definition Website_init (url : string) : M Website :=
  response <- call (EGet url) (fun h => requests_get W h url) ;;
  soup <- call (EParse response) (fun _ => html_parser W response) ;;
  ret (extract url soup).

(** ** Cell "Call the OpenAI API" *)

Definition summarize_website (url : string) : M string :=
  website <- Website_init url ;;
  messages <- call (EPrompt website) (fun _ => Return (message_for website)) ;;
  response <- call (ECreate "gpt-4o-mini" messages)
                (fun h => chat_completions_create W h "gpt-4o-mini" messages) ;;
  summary <- lift (first_choice_stripped response) ;;
  ret summary.

Definition display_summary (url : string) : M unit :=
  summary <- summarize_website url ;;
  display ("### Summary of " ++ url ++ LF ++ LF ++ summary).

(** ** The notebook, top to bottom; [api_key] is [os.getenv("OPENAI_API_KEY")].
    Building the client, [openai = OpenAI()], makes no request. *)

Definition notebook (api_key : option string) : M unit :=
  valid <- lift (check_api_key api_key) ;;
  print valid ;;;
  page <- Website_init "https://books.toscrape.com/" ;;
  print ("Title: " ++ Py.format (title page)) ;;;
  print ("Content: " ++ Py.slice (content page) 500 1000) ;;;
  _ <- call (EPrompt page) (fun _ => Return (message_for page)) ;;
  display_summary "https://books.toscrape.com/" ;;;
  display_summary "https://www.cnn.com/".

End Cells.

(** ** Vocabulary of the statements *)

(** Leading and trailing white space of a string. *)
Definition starts_with_space (s : string) : bool :=
  match s with
  | EmptyString => false
  | String c _ => Py.isspace c
  end.

Fixpoint ends_with_space (s : string) : bool :=
  match s with
  | EmptyString => false
  | String c EmptyString => Py.isspace c
  | String _ s' => ends_with_space s'
  end.

(** A key that is absent, empty, without the prefix "sk-", or with white
    space at either end. *)
Definition malformed (api_key : option string) : Prop :=
  match api_key with
  | None => True
  | Some key =>
      key = EmptyString \/ Py.startswith key "sk-" = false \/
      starts_with_space key = true \/ ends_with_space key = true
  end.

(** A string that is not empty. *)
Definition nonblank (s : string) : bool := negb (Py.is_empty s).

(** The text fragments of a document: the texts of its ordinary string
    nodes, in document order. *)
Definition is_text_fragment (e : PageElement) : bool :=
  match e with
  | Tag _ _ => false
  | Text type _ => interesting_string_type type
  end.

Definition text_fragments (e : PageElement) : list string :=
  map text_of (filter is_text_fragment (descendants e)).

(** The content in the words of the specification: every remaining text
    fragment, trimmed, joined by a space and a newline. *)
Definition content_as_specified (soup : PageElement) : string :=
  Py.join (" " ++ LF)
    (map Py.strip (text_fragments (decompose_each soup irrelevant_tags))).

(** The title in the words of the specification: the trimmed text of the
    title element, or the sentinel. *)
Definition title_as_specified (soup : PageElement) : string :=
  match find soup "title" with
  | Some t => Py.strip (get_text t EmptyString false)
  | None => "No title found"
  end.

(** Two documents that differ at most inside tags named in [names]. *)
Unset Elimination Schemes.
Inductive agree_outside (names : list string) : PageElement -> PageElement -> Prop :=
| agree_text : forall type text,
    agree_outside names (Text type text) (Text type text)
| agree_inside : forall name contents1 contents2,
    existsb (String.eqb name) names = true ->
    agree_outside names (Tag name contents1) (Tag name contents2)
| agree_tag : forall name contents1 contents2,
    Forall2 (agree_outside names) contents1 contents2 ->
    agree_outside names (Tag name contents1) (Tag name contents2).
Set Elimination Schemes.

(** Decides [agree_outside] on two given documents. *)
Ltac agree_outside_tac :=
  repeat first
    [ apply agree_text
    | apply agree_inside; reflexivity
    | apply agree_tag
    | apply Forall2_cons
    | apply Forall2_nil ].

(** What the parser guarantees of the tags the notebook removes: script and
    style hold raw text, img and input are void, so none of them has a tag
    below it. *)
Definition is_tag (e : PageElement) : bool :=
  match e with
  | Tag _ _ => true
  | Text _ _ => false
  end.

Fixpoint removed_are_leaves (names : list string) (e : PageElement) : bool :=
  match e with
  | Text _ _ => true
  | Tag name contents =>
      (if existsb (String.eqb name) names
       then forallb (fun x => negb (is_tag x)) contents
       else true)
      && forallb (removed_are_leaves names) contents
  end.

(** Sample documents, as html.parser builds them.

    [padded_title_page]:
    <html><head><title> Books </title></head><body><p>Home</p></body></html>

    [empty_title_page]:
    <html><head><title></title></head><body><p>Hi</p></body></html>

    [spaced_page]: <html><body><p>a</p> <p>b</p></body></html> *)
Definition padded_title_page : PageElement :=
  Tag "[document]"
    [Tag "html"
       [Tag "head" [Tag "title" [Text NavigableString " Books "]];
        Tag "body" [Tag "p" [Text NavigableString "Home"]]]].

Definition empty_title_page : PageElement :=
  Tag "[document]"
    [Tag "html"
       [Tag "head" [Tag "title" []];
        Tag "body" [Tag "p" [Text NavigableString "Hi"]]]].

Definition spaced_page : PageElement :=
  Tag "[document]"
    [Tag "html"
       [Tag "body" [Tag "p" [Text NavigableString "a"];
                    Text NavigableString " ";
                    Tag "p" [Text NavigableString "b"]]]].

(** Two pages that differ only below their script, style and img tags; the
    strings there are ordinary strings, which [get_text] would keep.

    [scripted_page]:
    <html><head><title>Demo</title><style>p { color: red }</style></head>
    <body><script>alert(1)</script><p>Hello</p><img/><input/></body></html> *)
Definition scripted_page : PageElement :=
  Tag "[document]"
    [Tag "html"
       [Tag "head" [Tag "title" [Text NavigableString "Demo"];
                    Tag "style" [Text NavigableString "p { color: red }"]];
        Tag "body" [Tag "script" [Text NavigableString "alert(1)"];
                    Tag "p" [Text NavigableString "Hello"];
                    Tag "img" [];
                    Tag "input" []]]].

Definition scripted_page_other : PageElement :=
  Tag "[document]"
    [Tag "html"
       [Tag "head" [Tag "title" [Text NavigableString "Demo"];
                    Tag "style" [Text NavigableString "h1 { margin: 0 }"]];
        Tag "body" [Tag "script" [Text NavigableString "track()";
                                  Text CData "more"];
                    Tag "p" [Text NavigableString "Hello"];
                    Tag "img" [Text NavigableString "caption"];
                    Tag "input" []]]].

(** Sample worlds: one where nothing can be reached, one that serves a small
    page (already parsed by [html_parser]) and a one-choice completion. *)
Definition offline_world : World :=
  {| requests_get := fun _ _ => Raise (LibraryError "requests.exceptions.ConnectionError");
     html_parser := fun _ => Return (Tag "[document]" []);
     chat_completions_create := fun _ _ _ => Raise (LibraryError "openai.APIConnectionError") |}.

Definition demo_soup : PageElement :=
  Tag "[document]"
    [Tag "html"
       [Tag "head" [Tag "title" [Text NavigableString "Demo"]];
        Tag "body" [Tag "script" [Text Script "x"];
                    Tag "p" [Text NavigableString "Hello"]]]].

Definition demo_completion : OpenAI.ChatCompletion :=
  {| OpenAI.choices :=
       Some [ {| OpenAI.message := {| OpenAI.content := Some " A short summary. " |} |} ] |}.

Definition demo_world : World :=
  {| requests_get := fun _ _ =>
       Return "<html><head><title>Demo</title></head><body><script>x</script><p>Hello</p></body></html>";
     html_parser := fun _ => Return demo_soup;
     chat_completions_create := fun _ _ _ => Return demo_completion |}.

(** The events that display something. *)
Definition is_display (ev : event) : bool :=
  match ev with EDisplay _ => true | _ => false end.

(** Two documents with the same visible text: they differ at most in the
    white space around their strings and in the text of the strings that
    [get_text] does not keep (comments, doctype and the like). *)
Unset Elimination Schemes.
Inductive same_visible_text : PageElement -> PageElement -> Prop :=
| same_hidden : forall type text1 text2,
    interesting_string_type type = false ->
    same_visible_text (Text type text1) (Text type text2)
| same_padded : forall type text1 text2,
    Py.strip text1 = Py.strip text2 ->
    same_visible_text (Text type text1) (Text type text2)
| same_tag : forall name contents1 contents2,
    Forall2 same_visible_text contents1 contents2 ->
    same_visible_text (Tag name contents1) (Tag name contents2).
Set Elimination Schemes.

(** Decides [same_visible_text] on two given documents. *)
Ltac same_visible_text_tac :=
  repeat first
    [ apply same_padded; reflexivity
    | apply same_hidden; reflexivity
    | apply same_tag
    | apply Forall2_cons
    | apply Forall2_nil ].

(** More sample documents.

    [gallery_page]:
    <html><head><style>p{}</style></head>
    <body><img/><p>One</p><script>x</script><input/><p>Two</p></body></html>

    [commented_page] and [commented_page_reformatted] differ in the
    comment and in the white space around the text. *)
Definition gallery_page : PageElement :=
  Tag "[document]"
    [Tag "html"
       [Tag "head" [Tag "style" [Text Stylesheet "p{}"]];
        Text NavigableString LF;
        Tag "body" [Tag "img" [];
                    Tag "p" [Text NavigableString "One"];
                    Tag "script" [Text Script "x"];
                    Tag "input" [];
                    Tag "p" [Text NavigableString "Two"]]]].

Definition commented_page : PageElement :=
  Tag "[document]"
    [Tag "html"
       [Tag "body" [Text Comment " draft ";
                    Tag "p" [Text NavigableString "Hello"]]]].

Definition commented_page_reformatted : PageElement :=
  Tag "[document]"
    [Tag "html"
       [Tag "body" [Text Comment " final ";
                    Tag "p" [Text NavigableString ("  Hello" ++ LF)]]]].

(** An error of the completion service, as opposed to a failure of the
    notebook's own reading of the answer: the notebook defines no exception
    class, so the errors of the service are those the client library raises
    (openai.AuthenticationError, openai.RateLimitError,
    openai.APIConnectionError, ...), and the built-in IndexError, TypeError
    and AttributeError are not among them. *)
Definition is_api_error (e : exception) : bool :=
  match e with
  | LibraryError name => Py.startswith name "openai."
  | _ => false
  end.

(** Completions without a usable first choice, and worlds that answer with
    them: one choice whose message has no text, and no choice at all. *)
Definition no_text_completion : OpenAI.ChatCompletion :=
  {| OpenAI.choices := Some [ {| OpenAI.message := {| OpenAI.content := None |} |} ] |}.

Definition empty_completion : OpenAI.ChatCompletion :=
  {| OpenAI.choices := Some [] |}.

Definition no_text_world : World :=
  {| requests_get := requests_get demo_world;
     html_parser := html_parser demo_world;
     chat_completions_create := fun _ _ _ => Return no_text_completion |}.

Definition empty_choices_world : World :=
  {| requests_get := requests_get demo_world;
     html_parser := html_parser demo_world;
     chat_completions_create := fun _ _ _ => Return empty_completion |}.

(** * Properties *)

(** ** Stripping and joining strings *)

Module PyFacts.
Import Py.

Lemma length_lstrip (s : string) : String.length (lstrip s) <= String.length s.
Proof.
  induction s as [|c s IH]; simpl; [lia|].
  destruct (isspace c); simpl; lia.
Qed.

Lemma length_rstrip (s : string) : String.length (rstrip s) <= String.length s.
Proof.
  induction s as [|c s IH]; simpl; [lia|].
  destruct (rstrip s) as [|d r]; [destruct (isspace c)|]; simpl in *; lia.
Qed.

Lemma lstrip_fixed (s : string) : lstrip s = s <-> starts_with_space s = false.
Proof.
  destruct s as [|c s]; simpl; [tauto|].
  destruct (isspace c) eqn:E; split; intros H; try reflexivity; try discriminate.
  pose proof (length_lstrip s) as L. rewrite H in L. simpl in L. lia.
Qed.

Lemma rstrip_fixed (s : string) : rstrip s = s <-> ends_with_space s = false.
Proof.
  induction s as [|c s IH]; [simpl; tauto|].
  cbn [rstrip ends_with_space]. destruct s as [|d s].
  - simpl. destruct (isspace c); split; intros H; congruence.
  - destruct (rstrip (String d s)) as [|d' r] eqn:R.
    + split; intros H.
      * destruct (isspace c); discriminate.
      * apply IH in H. discriminate.
    + split; intros H.
      * apply IH. congruence.
      * apply IH in H. congruence.
Qed.

Lemma strip_fixed (s : string) :
  strip s = s <-> starts_with_space s = false /\ ends_with_space s = false.
Proof.
  unfold strip. split.
  - intros H.
    assert (L : lstrip s = s).
    { destruct s as [|c s]; [reflexivity|]. simpl in *.
      destruct (isspace c); [|reflexivity].
      pose proof (length_rstrip (lstrip s)) as L1.
      pose proof (length_lstrip s) as L2.
      rewrite H in L1. simpl in L1. lia. }
    rewrite L in H. split; [apply lstrip_fixed | apply rstrip_fixed]; assumption.
  - intros [H1 H2]. apply lstrip_fixed in H1. apply rstrip_fixed in H2. congruence.
Qed.

Lemma is_empty_true (s : string) : is_empty s = true <-> s = EmptyString.
Proof. destruct s; simpl; split; congruence. Qed.

Lemma append_empty_r (s : string) : s ++ EmptyString = s.
Proof. induction s as [|c s IH]; simpl; [reflexivity | now rewrite IH]. Qed.

Lemma contains_refl (s : string) : contains s s.
Proof. exists EmptyString, EmptyString. simpl. now rewrite append_empty_r. Qed.

Lemma contains_empty (s : string) : contains s EmptyString.
Proof. exists EmptyString, s. reflexivity. Qed.

Lemma append_assoc (a b c : string) : (a ++ b) ++ c = a ++ (b ++ c).
Proof. induction a as [|x a IH]; simpl; [reflexivity | now rewrite IH]. Qed.

Lemma contains_app_l (s t u : string) : contains s t -> contains (s ++ u) t.
Proof.
  intros (pre & post & ->). exists pre, (post ++ u).
  now rewrite !append_assoc.
Qed.

Lemma contains_app_r (s t u : string) : contains s t -> contains (u ++ s) t.
Proof.
  intros (pre & post & ->). exists (u ++ pre), post.
  now rewrite !append_assoc.
Qed.

(** An item of a joined list is a substring of the result. *)
Lemma join_contains (sep : string) (l : list string) (x : string) :
  In x l -> contains (join sep l) x.
Proof.
  induction l as [|y l IH]; [intros []|].
  intros [-> | H].
  - destruct l; simpl; [apply contains_refl|].
    apply contains_app_l, contains_refl.
  - destruct l as [|z l]; [destruct H|].
    change (join sep (y :: z :: l)) with (y ++ sep ++ join sep (z :: l)).
    apply contains_app_r, contains_app_r, IH, H.
Qed.

Lemma prefix_append (t s : string) :
  String.prefix t s = true <-> exists post, s = t ++ post.
Proof.
  revert s. induction t as [|a t IH]; intros s.
  - destruct s; simpl; split; eauto.
  - destruct s as [|b s]; simpl.
    + split; [discriminate | intros [post H]; discriminate].
    + destruct (ascii_dec a b) as [->|N].
      * rewrite IH. split; intros [post H]; exists post; congruence.
      * split; [discriminate | intros [post H]; congruence].
Qed.

(** The test [t in s] decides [contains s t]. *)
Lemma in_contains (t s : string) : in_ t s = true <-> contains s t.
Proof.
  split.
  - induction s as [|c s IH]; cbn [in_]; rewrite orb_true_iff; intros [H | H].
    + apply prefix_append in H. destruct H as [post ->].
      exists EmptyString, post. reflexivity.
    + discriminate.
    + apply prefix_append in H. destruct H as [post ->].
      exists EmptyString, post. reflexivity.
    + destruct (IH H) as (pre & post & ->). exists (String c pre), post. reflexivity.
  - intros (pre & post & ->). induction pre as [|c pre IH].
    + assert (String.prefix t (t ++ post) = true) as P.
      { apply prefix_append. now exists post. }
      change (in_ t (t ++ post) = true).
      destruct (t ++ post); cbn [in_]; rewrite P; reflexivity.
    + cbn [append in_]. rewrite IH. apply orb_true_r.
Qed.

End PyFacts.

(** ** The key check *)

Import PyFacts.

Lemma check_api_key_raises (api_key : option string) :
  (exists msg, check_api_key api_key = Raise (ValueError msg)) <-> malformed api_key.
Proof.
  unfold check_api_key, malformed. destruct api_key as [key|]; simpl.
  2:{ split; [trivial | intros _; eauto]. }
  destruct (Py.is_empty key) eqn:E; simpl.
  { apply is_empty_true in E. split; [now left | intros _; eauto]. }
  assert (key <> EmptyString) as NE.
  { intros ->. discriminate. }
  destruct (Py.startswith key "sk-") eqn:P; simpl.
  2:{ split; [intros _; right; now left | intros _; eauto]. }
  destruct (Py.strip key =? key) eqn:S; simpl.
  - apply String.eqb_eq, strip_fixed in S. destruct S as [S1 S2]. split.
    + intros [msg H]. discriminate.
    + intros [H | [H | [H | H]]]; congruence.
  - apply String.eqb_neq in S. split; [intros _ | intros _; eauto].
    right; right.
    destruct (starts_with_space key) eqn:S1; [now left|].
    destruct (ends_with_space key) eqn:S2; [now right|].
    exfalso. apply S, strip_fixed. now split.
Qed.

Lemma check_api_key_value_error (api_key : option string) (e : exception) :
  check_api_key api_key = Raise e -> exists msg, e = ValueError msg.
Proof.
  unfold check_api_key. destruct api_key as [key|]; simpl.
  2:{ intros H. injection H as <-. eauto. }
  destruct (Py.is_empty key); simpl.
  { intros H. injection H as <-. eauto. }
  destruct (Py.startswith key "sk-"); simpl.
  2:{ intros H. injection H as <-. eauto. }
  destruct (Py.strip key =? key); simpl; [discriminate|].
  intros H. injection H as <-. eauto.
Qed.

(** C4. The key check raises, and what it raises is a ValueError (the
    configuration error of the specification), exactly when the key is
    absent or empty, or does not begin with "sk-", or has white space at
    either end; the notebook then stops with that error and an empty trace,
    so before any request is made.  The key "abc-123" is such a key. *)
Theorem api_key_check (W : World) (api_key : option string) :
  ((exists e, check_api_key api_key = Raise e) <-> malformed api_key) /\
  (forall e, check_api_key api_key = Raise e -> exists msg, e = ValueError msg) /\
  (malformed api_key ->
   exists msg, notebook W api_key [] = (Raise (ValueError msg), [])) /\
  (exists msg, notebook W (Some "abc-123") [] = (Raise (ValueError msg), [])).
Proof.
  assert (forall k, malformed k ->
                    exists msg, notebook W k [] = (Raise (ValueError msg), [])) as stops.
  { intros k H. apply check_api_key_raises in H. destruct H as [msg H].
    exists msg. unfold notebook, bind, lift. now rewrite H. }
  split; [|split; [apply check_api_key_value_error|split; [apply stops|]]].
  - rewrite <- check_api_key_raises. split.
    + intros [e H]. destruct (check_api_key_value_error _ H) as [msg ->]. eauto.
    + intros [msg H]. eauto.
  - apply stops. simpl. right. now left.
Qed.

Lemma api_key_check_witness :
  malformed (Some "sk-key ") /\
  exists msg, notebook demo_world (Some "sk-key ") [] = (Raise (ValueError msg), []).
Proof.
  assert (malformed (Some "sk-key ")) as H.
  { simpl. right; right; right. reflexivity. }
  split; [exact H|].
  exact (proj1 (proj2 (proj2 (api_key_check demo_world (Some "sk-key ")))) H).
Defined.

(** ** The prompt *)

(** C3. [message_for] returns exactly two messages, the system message with
    the fixed system prompt and then the user message; the user message
    contains the title (as the f-string prints it, so the title itself when
    it is a string) and ends with the whole content of the page. *)
Theorem message_for_two_messages (website : Website) :
  exists user_content,
    message_for website =
      [ {| Msg.role := system; Msg.content := system_prompt |};
        {| Msg.role := user; Msg.content := user_content |} ] /\
    Py.contains user_content (Py.format (title website)) /\
    (forall t, title website = Some t -> Py.contains user_content t) /\
    (exists before, user_content = before ++ content website) /\
    Py.contains user_content (content website).
Proof.
  exists (user_prompt_for website). split; [reflexivity|].
  assert (Py.contains (user_prompt_for website) (Py.format (title website))) as T.
  { unfold user_prompt_for. do 2 apply contains_app_l.
    apply contains_app_r, contains_refl. }
  split; [exact T|]. split.
  - intros t E. rewrite E in T. exact T.
  - split.
    + unfold user_prompt_for. eexists. reflexivity.
    + unfold user_prompt_for. apply contains_app_r, contains_refl.
Qed.

Lemma message_for_two_messages_witness :
  exists user_content,
    message_for (extract "http://demo" demo_soup) =
      [ {| Msg.role := system; Msg.content := system_prompt |};
        {| Msg.role := user; Msg.content := user_content |} ] /\
    Py.contains user_content "Demo" /\
    Py.contains user_content ("Demo " ++ LF ++ "Hello").
Proof.
  destruct (message_for_two_messages (extract "http://demo" demo_soup))
    as (u & E & _ & T & _ & C).
  exists u. split; [exact E|]. split; [apply T; reflexivity | exact C].
Defined.

(** ** The pipeline *)

(** One run of [summarize_website], stage by stage. *)
Lemma summarize_website_run (W : World) (url : string) (h : list event) :
  summarize_website W url h =
    match requests_get W h url with
    | Raise e => (Raise e, (h ++ [EGet url])%list)
    | Return markup =>
        match html_parser W markup with
        | Raise e => (Raise e, (h ++ [EGet url; EParse markup])%list)
        | Return soup =>
            let website := extract url soup in
            let messages := message_for website in
            let h3 := (h ++ [EGet url; EParse markup; EPrompt website])%list in
            let h4 := (h3 ++ [ECreate "gpt-4o-mini" messages])%list in
            match chat_completions_create W h3 "gpt-4o-mini" messages with
            | Raise e => (Raise e, h4)
            | Return response => (first_choice_stripped response, h4)
            end
        end
    end.
Proof.
  unfold summarize_website, Website_init, bind, call, lift, ret.
  destruct (requests_get W h url) as [markup|e]; [|reflexivity].
  destruct (html_parser W markup) as [soup|e]; cbn zeta;
    rewrite <- !app_assoc; cbn [app]; [|reflexivity].
  destruct (chat_completions_create _ _ _ _) as [response|e]; [|reflexivity].
  destruct (first_choice_stripped response); reflexivity.
Qed.

(** C5. [summarize_website] runs fetch, parse and extract, prompt and
    completion in that order and stops at the first stage that raises, with
    that exception and no summary.  When the fetch raises, the trace holds
    the request alone: neither [message_for] nor the completion endpoint is
    called. *)
Theorem summarize_website_stops_at_first_failure
    (W : World) (url : string) (h : list event) :
  (forall e, requests_get W h url = Raise e ->
     summarize_website W url h = (Raise e, (h ++ [EGet url])%list)) /\
  (forall markup e,
     requests_get W h url = Return markup ->
     html_parser W markup = Raise e ->
     summarize_website W url h = (Raise e, (h ++ [EGet url; EParse markup])%list)) /\
  (forall markup soup,
     requests_get W h url = Return markup ->
     html_parser W markup = Return soup ->
     let website := extract url soup in
     let messages := message_for website in
     let h3 := (h ++ [EGet url; EParse markup; EPrompt website])%list in
     let h4 := (h3 ++ [ECreate "gpt-4o-mini" messages])%list in
     (forall e, chat_completions_create W h3 "gpt-4o-mini" messages = Raise e ->
        summarize_website W url h = (Raise e, h4)) /\
     (forall response,
        chat_completions_create W h3 "gpt-4o-mini" messages = Return response ->
        summarize_website W url h = (first_choice_stripped response, h4))).
Proof.
  rewrite summarize_website_run. split; [|split].
  - intros e ->. reflexivity.
  - intros markup e -> ->. reflexivity.
  - intros markup soup -> ->. cbn zeta. split.
    + intros e ->. reflexivity.
    + intros response ->. reflexivity.
Qed.

Lemma summarize_website_stops_at_first_failure_witness :
  summarize_website offline_world "http://unreachable.invalid" [] =
    (Raise (LibraryError "requests.exceptions.ConnectionError"),
     [EGet "http://unreachable.invalid"]).
Proof.
  apply (proj1 (summarize_website_stops_at_first_failure
                  offline_world "http://unreachable.invalid" [])).
  reflexivity.
Defined.

(** C6, as amended.  Once the completion call has answered: when the
    choices are a non-empty list whose first message has text,
    [summarize_website] returns that text stripped of leading and trailing
    white space; when the first message has no text, or the choices are an
    empty list or absent, reading the answer raises the built-in
    AttributeError, IndexError or TypeError, which leaves
    [summarize_website] as it is: whatever is raised then is no error of
    the completion service. *)
Theorem summarize_website_first_choice
    (W : World) (url : string) (h : list event)
    (markup : string) (soup : PageElement) (response : OpenAI.ChatCompletion) :
  let messages := message_for (extract url soup) in
  let h3 := (h ++ [EGet url; EParse markup; EPrompt (extract url soup)])%list in
  let h4 := (h3 ++ [ECreate "gpt-4o-mini" messages])%list in
  requests_get W h url = Return markup ->
  html_parser W markup = Return soup ->
  chat_completions_create W h3 "gpt-4o-mini" messages = Return response ->
  (forall choice rest text,
     OpenAI.choices response = Some (choice :: rest) ->
     OpenAI.content (OpenAI.message choice) = Some text ->
     summarize_website W url h = (Return (Py.strip text), h4)) /\
  (forall choice rest,
     OpenAI.choices response = Some (choice :: rest) ->
     OpenAI.content (OpenAI.message choice) = None ->
     summarize_website W url h = (Raise AttributeError, h4)) /\
  (OpenAI.choices response = Some [] ->
     summarize_website W url h = (Raise IndexError, h4)) /\
  (OpenAI.choices response = None ->
     summarize_website W url h = (Raise TypeError, h4)) /\
  (forall e, fst (summarize_website W url h) = Raise e -> is_api_error e = false).
Proof.
  intros messages h3 h4 G P C. rewrite summarize_website_run, G, P. cbn zeta.
  fold messages h3 h4. rewrite C.
  unfold first_choice_stripped. split; [|split; [|split; [|split]]].
  - intros choice rest text -> ->. reflexivity.
  - intros choice rest -> ->. reflexivity.
  - intros ->. reflexivity.
  - intros ->. reflexivity.
  - intros e. cbn [fst].
    destruct (OpenAI.choices response) as [[|choice rest]|];
      [| destruct (OpenAI.content (OpenAI.message choice)) |];
      try discriminate; intros H; injection H as <-; reflexivity.
Qed.

Lemma summarize_website_first_choice_witness :
  fst (summarize_website demo_world "http://demo" []) = Return "A short summary." /\
  fst (summarize_website no_text_world "http://demo" []) = Raise AttributeError.
Proof.
  split.
  - rewrite (proj1 (summarize_website_first_choice demo_world "http://demo" []
                      (markup := _) (soup := demo_soup) (response := demo_completion)
                      eq_refl eq_refl eq_refl) _ [] " A short summary. " eq_refl eq_refl).
    reflexivity.
  - rewrite (proj1 (proj2
               (summarize_website_first_choice no_text_world "http://demo" []
                  (markup := _) (soup := demo_soup) (response := no_text_completion)
                  eq_refl eq_refl eq_refl)) _ [] eq_refl eq_refl).
    reflexivity.
Defined.

(** The claim as stated fails on an answer whose single choice has no text:
    the choices are not empty, yet no summary is returned; and on an answer
    without choices what is raised is the IndexError of the list access, not
    an error of the completion service. *)
Lemma first_choice_without_text_counterexample :
  OpenAI.choices no_text_completion <> Some [] /\
  OpenAI.choices no_text_completion <> None /\
  fst (summarize_website no_text_world "http://demo" []) = Raise AttributeError /\
  fst (summarize_website empty_choices_world "http://demo" []) = Raise IndexError /\
  is_api_error IndexError = false.
Proof.
  split; [discriminate|]. split; [discriminate|]. split; [reflexivity|].
  split; reflexivity.
Qed.

(** ** Searching the document *)

Module Bs4Facts.

Lemma matches_single (name : string) (e : PageElement) :
  matches [name] e = true <-> exists contents, e = Tag name contents.
Proof.
  destruct e as [n c|ty s]; simpl.
  - rewrite orb_false_r, String.eqb_eq. split.
    + intros ->. now exists c.
    + intros [c' H]. congruence.
  - split; [discriminate | intros [c' H]; discriminate].
Qed.

(** [find] returns a tag of that name from among the descendants. *)
Lemma find_some (e t : PageElement) (name : string) :
  find e name = Some t ->
  In t (descendants e) /\ exists contents, t = Tag name contents.
Proof.
  unfold find, find_all. intros H.
  assert (In t (filter (matches [name]) (descendants e))) as I.
  { destruct (filter _ _); [discriminate|]. injection H as ->. now left. }
  apply filter_In in I. destruct I as [I M]. split; [exact I|].
  now apply matches_single.
Qed.

(** [find] returns nothing exactly when no descendant is a tag of that name. *)
Lemma find_none (e : PageElement) (name : string) :
  find e name = None <-> forall contents, ~ In (Tag name contents) (descendants e).
Proof.
  unfold find, find_all. split.
  - intros H c I.
    assert (In (Tag name c) (filter (matches [name]) (descendants e))) as F.
    { apply filter_In. split; [exact I|]. apply matches_single. now exists c. }
    destruct (filter _ _); [destruct F | discriminate].
  - intros H. destruct (filter _ _) as [|x l] eqn:F; [reflexivity|]. exfalso.
    assert (In x (filter (matches [name]) (descendants e))) as I.
    { rewrite F. now left. }
    apply filter_In in I. destruct I as [I M].
    apply matches_single in M. destruct M as [c ->]. exact (H c I).
Qed.

(** [find] returns the first tag of that name in document order. *)
Lemma find_first (e : PageElement) (name : string)
    (before after : list PageElement) (contents : list PageElement) :
  descendants e = (before ++ Tag name contents :: after)%list ->
  (forall c, ~ In (Tag name c) before) ->
  find e name = Some (Tag name contents).
Proof.
  intros D H. unfold find, find_all. rewrite D, filter_app.
  assert (filter (matches [name]) before = []) as ->.
  { clear D. induction before as [|x l IH]; [reflexivity|]. simpl.
    destruct (matches [name] x) eqn:M.
    - apply matches_single in M. destruct M as [c ->].
      exfalso. apply (H c). now left.
    - apply IH. intros c I. apply (H c). now right. }
  simpl. rewrite String.eqb_refl. reflexivity.
Qed.

(** ** Removing tags *)

(** After pruning, no tag of the removed names is left. *)
Lemma prune_leaves_none (names : list string) (e : PageElement) :
  Forall (fun x => matches names x = false)
    (flat_map self_and_descendants (prune names e)).
Proof.
  induction e as [n c IH|ty s] using PageElement_ind; simpl.
  - destruct (existsb (String.eqb n) names) eqn:E; simpl; [constructor|].
    rewrite app_nil_r. constructor; [exact E|].
    induction IH as [|x l Hx _ IHl]; simpl; [constructor|].
    rewrite flat_map_app. apply Forall_app. split; assumption.
  - constructor; [reflexivity | constructor].
Qed.

Lemma flat_map_prune_leaves_none (names : list string) (l : list PageElement) :
  Forall (fun x => matches names x = false)
    (flat_map self_and_descendants (flat_map (prune names) l)).
Proof.
  induction l as [|x l IH]; simpl; [constructor|].
  rewrite flat_map_app. apply Forall_app. split; [apply prune_leaves_none | exact IH].
Qed.

Lemma find_all_decompose_each (names : list string) (e : PageElement) :
  find_all (decompose_each e names) names = [].
Proof.
  unfold find_all.
  assert (Forall (fun x => matches names x = false)
            (descendants (decompose_each e names))) as F.
  { destruct e as [n c|ty s]; simpl; [apply flat_map_prune_leaves_none | constructor]. }
  induction F as [|x l Hx _ IH]; simpl; [reflexivity|]. now rewrite Hx.
Qed.

(** Pruning does not see what is inside the removed tags. *)
Lemma prune_agree (names : list string) (e1 : PageElement) :
  forall e2, agree_outside names e1 e2 -> prune names e1 = prune names e2.
Proof.
  induction e1 as [n c1 IH|ty s] using PageElement_ind; intros e2 A;
    inversion A as [ | ? ? c2 Hin | ? ? c2 HF ]; subst.
  - simpl. now rewrite Hin.
  - simpl. destruct (existsb (String.eqb n) names); [reflexivity|].
    do 2 f_equal.
    clear A. revert IH.
    induction HF as [|x y l l' Hxy _ IHl]; intros IH; [reflexivity|].
    simpl. inversion IH as [|? ? Px Pl]; subst.
    rewrite (Px y Hxy). f_equal. apply IHl, Pl.
  - reflexivity.
Qed.

Lemma decompose_each_agree (names : list string) (e1 e2 : PageElement) :
  matches names e1 = false ->
  agree_outside names e1 e2 ->
  decompose_each e1 names = decompose_each e2 names.
Proof.
  intros M A.
  pose proof (prune_agree A) as P.
  destruct A; simpl in *; [reflexivity| congruence |].
  rewrite M in P. congruence.
Qed.

(** ** The loop over the objects *)

Lemma take_out_ext (p q : nat -> bool) (o : Objects.Obj) :
  (forall x, p x = q x) -> Objects.take_out p o = Objects.take_out q o.
Proof.
  intros E. induction o as [i n c IH|i ty s] using Objects.Obj_ind; simpl; rewrite E.
  - destruct (q i); [reflexivity|]. do 2 f_equal.
    induction IH as [|x l Hx _ IHl]; simpl; [reflexivity | now rewrite Hx, IHl].
  - reflexivity.
Qed.

Lemma take_out_none (o : Objects.Obj) : Objects.take_out (fun _ => false) o = [o].
Proof.
  induction o as [i n c IH|i ty s] using Objects.Obj_ind; simpl; [|reflexivity].
  do 2 f_equal.
  induction IH as [|x l Hx _ IHl]; simpl; [reflexivity | now rewrite Hx, IHl].
Qed.

(** Taking out in two rounds is taking out the union. *)
Lemma take_out_twice (p q : nat -> bool) (o : Objects.Obj) :
  flat_map (Objects.take_out q) (Objects.take_out p o) =
  Objects.take_out (fun x => p x || q x) o.
Proof.
  induction o as [i n c IH|i ty s] using Objects.Obj_ind; simpl.
  - destruct (p i); simpl; [reflexivity|].
    destruct (q i); simpl; [reflexivity|]. do 2 f_equal.
    induction IH as [|x l Hx _ IHl]; simpl; [reflexivity|].
    now rewrite flat_map_app, Hx, IHl.
  - destruct (p i); simpl; [reflexivity|]. destruct (q i); reflexivity.
Qed.

Lemma take_out_twice_list (p q : nat -> bool) (l : list Objects.Obj) :
  flat_map (Objects.take_out q) (flat_map (Objects.take_out p) l) =
  flat_map (Objects.take_out (fun x => p x || q x)) l.
Proof.
  induction l as [|x l IH]; simpl; [reflexivity|].
  now rewrite flat_map_app, take_out_twice, IH.
Qed.

Lemma take_out_ext_list (p q : nat -> bool) (l : list Objects.Obj) :
  (forall x, p x = q x) ->
  flat_map (Objects.take_out p) l = flat_map (Objects.take_out q) l.
Proof.
  intros E. induction l as [|x l IH]; simpl; [reflexivity|].
  now rewrite (@take_out_ext p q x E), IH.
Qed.

(** The loop takes out the objects that [find_all] returned. *)
Lemma decompose_fold (ts : list Objects.Obj) :
  forall (p : nat -> bool) i n (c : list Objects.Obj),
  fold_left (fun r t => Objects.decompose t r) ts
    (Objects.OTag i n (flat_map (Objects.take_out p) c)) =
  Objects.OTag i n
    (flat_map
       (Objects.take_out
          (fun x => p x || existsb (fun t => Nat.eqb (Objects.id_of t) x) ts)) c).
Proof.
  induction ts as [|t ts IH]; intros p i n c; simpl.
  - f_equal. apply take_out_ext_list. intros x. now rewrite orb_false_r.
  - rewrite take_out_twice_list, IH. f_equal.
    apply take_out_ext_list. intros x. now rewrite orb_assoc.
Qed.

Lemma NoDup_map_injective {A B : Type} (f : A -> B) (l : list A) (x y : A) :
  NoDup (map f l) -> In x l -> In y l -> f x = f y -> x = y.
Proof.
  induction l as [|a l IH]; simpl; [intros _ []|].
  intros N Hx Hy E. inversion N as [|? ? Na Nl]; subst.
  destruct Hx as [-> | Hx], Hy as [-> | Hy]; try reflexivity.
  - exfalso. apply Na. rewrite E. now apply in_map.
  - exfalso. apply Na. rewrite <- E. now apply in_map.
  - now apply IH.
Qed.

(** Taking out the objects that match is pruning the document. *)
Lemma erase_take_out (names : list string) (gone : nat -> bool) (o : Objects.Obj) :
  (forall x, In x (Objects.self_and_descendants o) ->
             gone (Objects.id_of x) = matches names (Objects.erase x)) ->
  map Objects.erase (Objects.take_out gone o) = prune names (Objects.erase o).
Proof.
  induction o as [i n c IH|i ty s] using Objects.Obj_ind; intros H.
  - pose proof (H (Objects.OTag i n c) (or_introl eq_refl)) as H0.
    cbn [Objects.erase matches Objects.id_of] in H0.
    cbn [Objects.take_out Objects.erase prune Objects.id_of]. rewrite H0.
    destruct (existsb (String.eqb n) names); [reflexivity|].
    cbn [map Objects.erase]. do 2 f_equal.
    assert (forall x y, In x c -> In y (Objects.self_and_descendants x) ->
                        gone (Objects.id_of y) = matches names (Objects.erase y)) as Hc.
    { intros x y X Y. apply H. right. apply in_flat_map. now exists x. }
    clear H. induction IH as [|x l Hx _ IHl]; [reflexivity|].
    cbn [flat_map map]. rewrite map_app, Hx, IHl; [reflexivity| |].
    + intros x' y X Y. apply (Hc x' y); [now right | exact Y].
    + intros y Y. apply (Hc x y); [now left | exact Y].
  - pose proof (H (Objects.OText i ty s) (or_introl eq_refl)) as H0.
    cbn [Objects.erase matches Objects.id_of] in H0.
    cbn [Objects.take_out Objects.id_of]. rewrite H0. reflexivity.
Qed.

(** The loop of [Website.__init__], run on the objects, leaves the document
    that [decompose_each] computes. *)
Lemma decompose_loop_erase (root : Objects.Obj) (names : list string) :
  Objects.distinct_objects root ->
  Objects.erase (Objects.decompose_loop root names) =
  decompose_each (Objects.erase root) names.
Proof.
  intros N. destruct root as [i n c|i ty s]; [|reflexivity].
  unfold Objects.decompose_loop.
  set (ts := Objects.find_all (Objects.OTag i n c) names).
  assert (Objects.OTag i n c =
          Objects.OTag i n (flat_map (Objects.take_out (fun _ => false)) c)) as E.
  { f_equal. clear. induction c as [|x l IHl]; simpl; [reflexivity|].
    rewrite take_out_none. simpl. now f_equal. }
  rewrite E at 1. rewrite decompose_fold. cbn [orb Objects.erase decompose_each].
  f_equal.
  assert (forall y, In y (Objects.descendants (Objects.OTag i n c)) ->
            existsb (fun t => Nat.eqb (Objects.id_of t) (Objects.id_of y)) ts =
            matches names (Objects.erase y)) as H.
  { intros y Y. destruct (matches names (Objects.erase y)) eqn:M.
    - apply existsb_exists. exists y. split; [|apply Nat.eqb_refl].
      apply filter_In. now split.
    - destruct (existsb _ ts) eqn:X; [|reflexivity].
      apply existsb_exists in X. destruct X as (t & T & X).
      apply Nat.eqb_eq in X. apply filter_In in T. destruct T as [T Mt].
      assert (t = y) as ->; [|congruence].
      apply (NoDup_map_injective Objects.id_of
               (Objects.self_and_descendants (Objects.OTag i n c)));
        [exact N | now right | now right | exact X]. }
  clear E N. cbn [Objects.descendants] in H. clearbody ts.
  induction c as [|x l IHl]; [reflexivity|].
  cbn [flat_map map]. rewrite map_app, (@erase_take_out names _ x), IHl; [reflexivity| |].
  - intros y Y. apply H. cbn [flat_map]. apply in_or_app. now right.
  - intros y Y. apply H. cbn [flat_map]. apply in_or_app. now left.
Qed.

Lemma objects_from_tag (n : nat) (name : string) (c : list PageElement) :
  Objects.objects_from n (Tag name c) =
  Objects.OTag n name (Objects.objects_from_list (S n) c).
Proof. reflexivity. Qed.

Lemma erase_objects_from (e : PageElement) :
  forall n, Objects.erase (Objects.objects_from n e) = e.
Proof.
  induction e as [name c IH|ty s] using PageElement_ind; intros n; [|reflexivity].
  rewrite objects_from_tag. cbn [Objects.erase]. f_equal.
  generalize (S n). induction IH as [|x l Hx _ IHl]; intros k; cbn; [reflexivity|].
  now rewrite Hx, IHl.
Qed.

(** Numbered in document order, the objects carry the numbers from [n] on. *)
Lemma ids_objects_from (e : PageElement) :
  forall n,
    map Objects.id_of (Objects.self_and_descendants (Objects.objects_from n e)) =
    seq n (Objects.size e).
Proof.
  induction e as [name c IH|ty s] using PageElement_ind; intros n; [|reflexivity].
  rewrite objects_from_tag. cbn [Objects.self_and_descendants Objects.size map seq].
  cbn [Objects.id_of]. f_equal.
  generalize (S n). induction IH as [|x l Hx _ IHl]; intros k; cbn; [reflexivity|].
  rewrite map_app, Hx, IHl, seq_app. reflexivity.
Qed.

Lemma distinct_objects_of (soup : PageElement) :
  Objects.distinct_objects (Objects.objects_of soup).
Proof.
  unfold Objects.distinct_objects, Objects.objects_of.
  rewrite ids_objects_from. apply seq_NoDup.
Qed.

(** The loop run on the objects of a document leaves [decompose_each]. *)
Lemma decompose_loop_objects_of (soup : PageElement) (names : list string) :
  Objects.erase (Objects.decompose_loop (Objects.objects_of soup) names) =
  decompose_each soup names.
Proof.
  rewrite (decompose_loop_erase _ (distinct_objects_of soup)).
  unfold Objects.objects_of. now rewrite erase_objects_from.
Qed.

(** ** Collecting the text *)

(** The generator behind [get_text(strip=True)] yields the trimmed text
    fragments that are not empty. *)
Lemma yield_strings_fragments (l : list PageElement) :
  flat_map (yield_string true) l =
  filter nonblank (map Py.strip (map text_of (filter is_text_fragment l))).
Proof.
  induction l as [|x l IH]; [reflexivity|].
  cbn [flat_map filter]. rewrite IH.
  destruct x as [n c|ty s]; simpl; [reflexivity|].
  destruct (interesting_string_type ty); simpl; [|reflexivity].
  unfold nonblank. destruct (Py.is_empty (Py.strip s)); reflexivity.
Qed.

(** When no fragment is blank, nothing is dropped. *)
Lemma filter_nonblank_all (l : list string) :
  forallb nonblank l = true -> filter nonblank l = l.
Proof.
  induction l as [|x l IH]; simpl; [reflexivity|].
  intros H. apply andb_true_iff in H. destruct H as [-> H]. now rewrite IH.
Qed.

(** A string directly below a tag that is not removed, in a document where
    removed tags have no tag below them, is still there after pruning. *)
Lemma child_text_survives (names : list string) (e : PageElement)
    (name : string) (contents : list PageElement) (t : PageElement) :
  removed_are_leaves names e = true ->
  In (Tag name contents) (self_and_descendants e) ->
  existsb (String.eqb name) names = false ->
  In t contents -> is_tag t = false ->
  In t (flat_map self_and_descendants (prune names e)).
Proof.
  intros L I N C T. revert L I.
  induction e as [n cs IH|ty s] using PageElement_ind; intros L I.
  - cbn [removed_are_leaves] in L. apply andb_true_iff in L. destruct L as [L1 L2].
    cbn [self_and_descendants] in I. destruct I as [E | I].
    + injection E as -> ->. cbn [prune]. rewrite N. cbn [flat_map].
      rewrite app_nil_r. right.
      apply in_flat_map. exists t. split.
      * apply in_flat_map. exists t. split; [exact C|].
        destruct t; [discriminate | now left].
      * destruct t; now left.
    + apply in_flat_map in I. destruct I as (y & Y & I).
      destruct (existsb (String.eqb n) names) eqn:E.
      * exfalso. rewrite forallb_forall in L1. specialize (L1 y Y).
        destruct y as [m c|ty s]; [discriminate|].
        destruct I as [I | []]. discriminate.
      * cbn [prune]. rewrite E. cbn [flat_map]. rewrite app_nil_r. right.
        rewrite Forall_forall in IH. rewrite forallb_forall in L2.
        specialize (IH y Y (L2 y Y) I).
        apply in_flat_map in IH. destruct IH as (z & Z & IH).
        apply in_flat_map. exists z. split; [|exact IH].
        apply in_flat_map. exists y. split; assumption.
  - destruct I as [I | []]. discriminate.
Qed.

End Bs4Facts.

(** ** The title *)

Import Bs4Facts.

(** C1, as amended.  When the first title element of the document (in
    document order) holds a single string, directly or through tags with a
    single child, the title is that string as it stands, white space
    included; when the document has no title element, the title is
    "No title found". *)
Theorem title_is_first_title_string_or_sentinel (url : string) (soup : PageElement) :
  (forall before contents after type text,
     descendants soup = (before ++ Tag "title" contents :: after)%list ->
     (forall c, ~ In (Tag "title" c) before) ->
     string_ (Tag "title" contents) = Some (Text type text) ->
     title (extract url soup) = Some text) /\
  ((forall contents, ~ In (Tag "title" contents) (descendants soup)) ->
   title (extract url soup) = Some "No title found").
Proof.
  split.
  - intros before contents after type text D F S.
    unfold extract. cbn [title]. rewrite (@find_first soup "title" before after contents D F), S. reflexivity.
  - intros H. apply find_none in H. unfold extract. cbn [title]. now rewrite H.
Qed.

Lemma title_is_first_title_string_or_sentinel_witness :
  title (extract "http://books" padded_title_page) = Some " Books " /\
  title (extract "http://demo" (Tag "[document]" [Tag "p" []])) = Some "No title found".
Proof.
  split.
  - refine (proj1 (title_is_first_title_string_or_sentinel "http://books" padded_title_page)
              [Tag "html" [Tag "head" [Tag "title" [Text NavigableString " Books "]];
                           Tag "body" [Tag "p" [Text NavigableString "Home"]]];
               Tag "head" [Tag "title" [Text NavigableString " Books "]]]
              [Text NavigableString " Books "] _ NavigableString " Books "
              eq_refl _ eq_refl).
    intros c [H | [H | []]]; discriminate.
  - apply (proj2 (title_is_first_title_string_or_sentinel "http://demo"
                    (Tag "[document]" [Tag "p" []]))).
    intros c [H | []]. discriminate.
Defined.

(** The claim as the specification words it fails on a title padded with
    white space: the title keeps the padding. *)
Lemma title_not_trimmed_counterexample :
  find padded_title_page "title" = Some (Tag "title" [Text NavigableString " Books "]) /\
  title_as_specified padded_title_page = "Books" /\
  title (extract "http://books" padded_title_page)
    <> Some (title_as_specified padded_title_page).
Proof.
  split; [reflexivity|]. split; [reflexivity|]. vm_compute. discriminate.
Qed.

(** C8.  On a page whose title element is empty the title is neither a
    string nor the sentinel: it is None, and the prompt reads "titled None". *)
Theorem empty_title_element_gives_none (url : string) :
  find empty_title_page "title" = Some (Tag "title" []) /\
  title (extract url empty_title_page) = None /\
  content (extract url empty_title_page) = "Hi" /\
  Py.in_ "You are looking at a website titled None"
    (user_prompt_for (extract url empty_title_page)) = true.
Proof. repeat split; reflexivity. Qed.

(** ** The content *)

(** C2.  The content is the text of the document from which every script,
    style, img and input tag has been taken out: when the text is collected,
    after the loop that decomposes them, no tag named script, style, img or
    input is left in the tree, and two documents that differ only inside
    tags of these four names have the same content. *)
Theorem content_ignores_removed_elements (url : string) (soup : PageElement) :
  let removed := ["script"; "style"; "img"; "input"] in
  let pruned := Objects.erase (Objects.decompose_loop (Objects.objects_of soup) removed) in
  (forall name contents,
     In name removed -> ~ In (Tag name contents) (descendants pruned)) /\
  content (extract url soup) = get_text pruned (" " ++ LF) true /\
  (forall soup',
     matches removed soup = false ->
     agree_outside removed soup soup' ->
     content (extract url soup) = content (extract url soup')).
Proof.
  cbn zeta. rewrite decompose_loop_objects_of. split; [|split; [reflexivity|]].
  - intros name contents N I.
    pose proof (find_all_decompose_each ["script"; "style"; "img"; "input"] soup) as F.
    assert (In (Tag name contents)
              (find_all (decompose_each soup ["script"; "style"; "img"; "input"])
                 ["script"; "style"; "img"; "input"])) as X.
    { apply filter_In. split; [exact I|]. cbn [matches].
      apply existsb_exists. exists name. split; [exact N | apply String.eqb_refl]. }
    rewrite F in X. destruct X.
  - intros soup' M A. unfold extract. cbn [content].
    change irrelevant_tags with ["script"; "style"; "img"; "input"].
    now rewrite (decompose_each_agree M A).
Qed.

Lemma content_ignores_removed_elements_witness :
  content (extract "http://demo" scripted_page) =
    content (extract "http://demo" scripted_page_other) /\
  content (extract "http://demo" scripted_page) = "Demo " ++ LF ++ "Hello" /\
  get_text scripted_page (" " ++ LF) true =
    "Demo " ++ LF ++ "p { color: red } " ++ LF ++ "alert(1) " ++ LF ++ "Hello".
Proof.
  split; [|split; reflexivity].
  apply (proj2 (proj2 (content_ignores_removed_elements "http://demo" scripted_page))).
  - reflexivity.
  - unfold scripted_page, scripted_page_other. agree_outside_tac.
Defined.

(** C7, as amended.  The content is the remaining text fragments, each
    trimmed, without those that are empty once trimmed, joined by a space
    and a newline; when no fragment is blank this is the join of all the
    trimmed fragments. *)
Theorem content_is_joined_nonblank_fragments (url : string) (soup : PageElement) :
  content (extract url soup) =
    Py.join (" " ++ LF)
      (filter nonblank
         (map Py.strip (text_fragments (decompose_each soup irrelevant_tags)))) /\
  (forallb nonblank
     (map Py.strip (text_fragments (decompose_each soup irrelevant_tags))) = true ->
   content (extract url soup) = content_as_specified soup).
Proof.
  assert (content (extract url soup) =
          Py.join (" " ++ LF)
            (filter nonblank
               (map Py.strip (text_fragments (decompose_each soup irrelevant_tags)))))
    as E.
  { unfold extract, get_text, _all_strings, text_fragments. cbn [content].
    now rewrite yield_strings_fragments. }
  split; [exact E|].
  intros H. rewrite E, (filter_nonblank_all _ H). reflexivity.
Qed.

Lemma content_is_joined_nonblank_fragments_witness :
  content (extract "http://demo" demo_soup) = content_as_specified demo_soup.
Proof.
  apply (proj2 (content_is_joined_nonblank_fragments "http://demo" demo_soup)).
  reflexivity.
Defined.

(** The claim as the specification words it fails as soon as two elements
    are separated by white space: the blank fragment is dropped, with its
    separator. *)
Lemma blank_fragment_counterexample :
  text_fragments (decompose_each spaced_page irrelevant_tags) = ["a"; " "; "b"] /\
  content_as_specified spaced_page = "a " ++ LF ++ " " ++ LF ++ "b" /\
  content (extract "http://spaced" spaced_page) = "a " ++ LF ++ "b" /\
  content (extract "http://spaced" spaced_page) <> content_as_specified spaced_page.
Proof.
  split; [reflexivity|]. split; [reflexivity|]. split; [reflexivity|].
  vm_compute. discriminate.
Qed.

(** C10, as amended.  In a document as the parser builds it (no tag below a
    script, style, img or input tag), when the title element holds one
    ordinary string, the title is that string and the content contains it
    trimmed. *)
Theorem content_contains_trimmed_title
    (url : string) (soup : PageElement) (type : string_type) (text : string) :
  removed_are_leaves irrelevant_tags soup = true ->
  find soup "title" = Some (Tag "title" [Text type text]) ->
  interesting_string_type type = true ->
  title (extract url soup) = Some text /\
  Py.contains (content (extract url soup)) (Py.strip text).
Proof.
  intros L F I. split.
  { unfold extract. cbn [title]. rewrite F. reflexivity. }
  destruct (Py.is_empty (Py.strip text)) eqn:B.
  { apply is_empty_true in B. rewrite B. apply contains_empty. }
  unfold extract, get_text, _all_strings. cbn [content].
  apply join_contains, in_flat_map. exists (Text type text). split.
  - apply find_some in F. destruct F as [D _].
    destruct soup as [n cs|ty s]; [|destruct D]. cbn [descendants decompose_each] in *.
    apply in_flat_map in D. destruct D as (y & Y & D).
    cbn [removed_are_leaves] in L. apply andb_true_iff in L. destruct L as [_ L].
    rewrite forallb_forall in L.
    apply in_flat_map. 
    assert (In (Text type text) (flat_map self_and_descendants (prune irrelevant_tags y)))
      as S.
    { apply (@child_text_survives irrelevant_tags y "title" [Text type text]).
      - apply L, Y.
      - exact D.
      - reflexivity.
      - now left.
      - reflexivity. }
    apply in_flat_map in S. destruct S as (z & Z & S).
    exists z. split; [|exact S]. apply in_flat_map. exists y. split; assumption.
  - cbn [yield_string]. rewrite I, B. now left.
Qed.

Lemma content_contains_trimmed_title_witness :
  title (extract "http://books" padded_title_page) = Some " Books " /\
  Py.contains (content (extract "http://books" padded_title_page)) "Books".
Proof.
  exact (content_contains_trimmed_title "http://books" padded_title_page
           (type := NavigableString) (text := " Books ") eq_refl eq_refl eq_refl).
Defined.

(** The claim as stated fails on a padded title: the content holds the
    title trimmed, and the padded text of the title element is not in it. *)
Lemma padded_title_counterexample :
  find padded_title_page "title" = Some (Tag "title" [Text NavigableString " Books "]) /\
  content (extract "http://books" padded_title_page) = "Books " ++ LF ++ "Home" /\
  ~ Py.contains (content (extract "http://books" padded_title_page)) " Books ".
Proof.
  split; [reflexivity|]. split; [reflexivity|].
  intros H. apply in_contains in H. vm_compute in H. discriminate.
Qed.

(** ** Two runs on the same page *)

Lemma erase_self_and_descendants (o : Objects.Obj) :
  map Objects.erase (Objects.self_and_descendants o) =
  self_and_descendants (Objects.erase o).
Proof.
  induction o as [i n c IH|i ty s] using Objects.Obj_ind; [|reflexivity].
  cbn [Objects.self_and_descendants Objects.erase self_and_descendants map]. f_equal.
  induction IH as [|x l Hx _ IHl]; [reflexivity|].
  cbn [flat_map map]. now rewrite map_app, Hx, IHl.
Qed.

Lemma erase_descendants (o : Objects.Obj) :
  map Objects.erase (Objects.descendants o) = descendants (Objects.erase o).
Proof.
  destruct o as [i n c|i ty s]; [|reflexivity].
  cbn [Objects.descendants Objects.erase descendants].
  induction c as [|x l IHl]; [reflexivity|].
  cbn [flat_map map]. now rewrite map_app, erase_self_and_descendants, IHl.
Qed.

Lemma erase_find_all (o : Objects.Obj) (names : list string) :
  map Objects.erase (Objects.find_all o names) = find_all (Objects.erase o) names.
Proof.
  unfold Objects.find_all, find_all. rewrite <- erase_descendants.
  induction (Objects.descendants o) as [|x l IHl]; [reflexivity|].
  cbn [filter map]. destruct (matches names (Objects.erase x)); cbn [map]; now rewrite IHl.
Qed.

Lemma erase_find (o : Objects.Obj) (name : string) :
  option_map Objects.erase (OnObjects.find o name) = find (Objects.erase o) name.
Proof.
  unfold OnObjects.find, find. rewrite <- erase_find_all.
  destruct (Objects.find_all o [name]); reflexivity.
Qed.

Lemma erase_string (o : Objects.Obj) :
  option_map Objects.erase (OnObjects.string_ o) = string_ (Objects.erase o).
Proof.
  induction o as [i n c IH|i ty s] using Objects.Obj_ind; [|reflexivity].
  destruct c as [|child [|second rest]]; try reflexivity.
  inversion IH as [|? ? Hchild _]; subst. exact Hchild.
Qed.

Lemma erase_text_of (o : Objects.Obj) :
  OnObjects.text_of o = text_of (Objects.erase o).
Proof. destruct o; reflexivity. Qed.

Lemma erase_all_strings (o : Objects.Obj) (strip : bool) :
  OnObjects._all_strings o strip = _all_strings (Objects.erase o) strip.
Proof.
  unfold OnObjects._all_strings, _all_strings. rewrite <- erase_descendants.
  induction (Objects.descendants o) as [|x l IHl]; [reflexivity|].
  cbn [flat_map map]. rewrite IHl. f_equal. destruct x; reflexivity.
Qed.

Lemma distinct_objects_from (n : nat) (soup : PageElement) :
  Objects.distinct_objects (Objects.objects_from n soup).
Proof.
  unfold Objects.distinct_objects. rewrite ids_objects_from. apply seq_NoDup.
Qed.

(** Run on objects that are pairwise distinct, the lines of
    [Website.__init__] compute what [extract] computes from the document. *)
Lemma extract_objects_erase (url : string) (soup : Objects.Obj) :
  Objects.distinct_objects soup ->
  extract_objects url soup = extract url (Objects.erase soup).
Proof.
  intros N. unfold extract_objects, extract. f_equal.
  - rewrite <- erase_find.
    destruct (OnObjects.find soup "title") as [t|]; [|reflexivity].
    cbn [option_map]. rewrite <- erase_string.
    destruct (OnObjects.string_ t) as [x|]; [|reflexivity].
    cbn [option_map]. now rewrite erase_text_of.
  - unfold OnObjects.get_text, get_text.
    now rewrite erase_all_strings, (decompose_loop_erase _ N).
Qed.

(** C9.  Extraction is deterministic and keeps no state: two runs of the
    lines of [Website.__init__] on the same document, built in each run of
    other Python objects, end with the same title and the same content,
    whatever the URL; the outcome is the one [extract] computes from the
    document alone. *)
Theorem extract_deterministic (url1 url2 : string) (soup1 soup2 : Objects.Obj) :
  Objects.distinct_objects soup1 ->
  Objects.distinct_objects soup2 ->
  Objects.erase soup1 = Objects.erase soup2 ->
  title (extract_objects url1 soup1) = title (extract_objects url2 soup2) /\
  content (extract_objects url1 soup1) = content (extract_objects url2 soup2) /\
  title (extract_objects url1 soup1) = title (extract url1 (Objects.erase soup1)) /\
  content (extract_objects url1 soup1) = content (extract url1 (Objects.erase soup1)).
Proof.
  intros N1 N2 E.
  rewrite (extract_objects_erase url1 N1), (extract_objects_erase url2 N2), E.
  repeat split; reflexivity.
Qed.

Lemma extract_deterministic_witness :
  title (extract_objects "http://demo" (Objects.objects_from 0 scripted_page)) =
    title (extract_objects "http://demo" (Objects.objects_from 1000 scripted_page)) /\
  content (extract_objects "http://demo" (Objects.objects_from 0 scripted_page)) =
    content (extract_objects "http://demo" (Objects.objects_from 1000 scripted_page)).
Proof.
  destruct (extract_deterministic "http://demo" "http://demo"
              (distinct_objects_from 0 scripted_page)
              (distinct_objects_from 1000 scripted_page)
              (eq_trans (erase_objects_from scripted_page 0)
                        (eq_sym (erase_objects_from scripted_page 1000))))
    as (T & C & _).
  split; assumption.
Defined.

(** * Further properties of the cells *)

(** ** More on strings *)

Module PyMore.
Import Py.

Lemma lstrip_clean (s : string) : starts_with_space (lstrip s) = false.
Proof.
  induction s as [|c s IH]; [reflexivity|]. simpl.
  destruct (isspace c) eqn:E; [exact IH | simpl; exact E].
Qed.

Lemma rstrip_clean (s : string) : ends_with_space (rstrip s) = false.
Proof.
  induction s as [|c s IH]; [reflexivity|]. cbn [rstrip].
  destruct (rstrip s) as [|d r] eqn:R.
  - destruct (isspace c) eqn:E; [reflexivity | simpl; exact E].
  - exact IH.
Qed.

Lemma rstrip_keeps_start (s : string) :
  starts_with_space s = false -> starts_with_space (rstrip s) = false.
Proof.
  destruct s as [|c s]; [reflexivity|]. cbn [rstrip starts_with_space]. intros E.
  destruct (rstrip s); [rewrite E|]; simpl; exact E.
Qed.

(** A stripped string has no white space at either end. *)
Lemma strip_clean (s : string) :
  starts_with_space (strip s) = false /\ ends_with_space (strip s) = false.
Proof.
  unfold strip. split; [apply rstrip_keeps_start, lstrip_clean | apply rstrip_clean].
Qed.

Lemma strip_idempotent (s : string) : strip (strip s) = strip s.
Proof. apply strip_fixed, strip_clean. Qed.

Lemma starts_with_space_append (a b : string) :
  a <> EmptyString -> starts_with_space (a ++ b) = starts_with_space a.
Proof. destruct a; [congruence | reflexivity]. Qed.

Lemma ends_with_space_append (a b : string) :
  b <> EmptyString -> ends_with_space (a ++ b) = ends_with_space b.
Proof.
  intros N. induction a as [|c a IH]; [reflexivity|].
  cbn [append ends_with_space]. rewrite IH.
  destruct (a ++ b) eqn:E; [|reflexivity].
  destruct a; [simpl in E; congruence | discriminate].
Qed.

Lemma append_nonempty_r (a b : string) : b <> EmptyString -> a ++ b <> EmptyString.
Proof. destruct a; simpl; [trivial | discriminate]. Qed.

Lemma join_nonempty (sep x : string) (l : list string) :
  x <> EmptyString -> join sep (x :: l) <> EmptyString.
Proof.
  intros N. destruct l; simpl; [exact N|].
  destruct x; [congruence | discriminate].
Qed.

(** Joining strings that are not empty and have no outer white space gives
    a string without outer white space, whatever the separator. *)
Lemma join_clean (sep : string) (l : list string) :
  Forall (fun x => x <> EmptyString /\
                   starts_with_space x = false /\ ends_with_space x = false) l ->
  starts_with_space (join sep l) = false /\ ends_with_space (join sep l) = false.
Proof.
  induction 1 as [|x l (N & S & E) F IH]; [split; reflexivity|].
  destruct l as [|y l]; [split; assumption|].
  change (join sep (x :: y :: l)) with (x ++ sep ++ join sep (y :: l)).
  inversion F as [|? ? (Ny & _) _]; subst.
  pose proof (join_nonempty sep l Ny) as J. split.
  - now rewrite starts_with_space_append.
  - rewrite !ends_with_space_append; [apply IH | exact J | now apply append_nonempty_r].
Qed.

Lemma length_append (a b : string) :
  String.length (a ++ b) = String.length a + String.length b.
Proof. induction a as [|c a IH]; simpl; [reflexivity | now rewrite IH]. Qed.

(** Slicing: [s[i:j]] never fails, whatever the bounds. *)
Lemma substring_length (s : string) :
  forall n m, String.length (String.substring n m s) <= m.
Proof.
  induction s as [|c s IH]; intros [|n] [|m]; simpl; try lia.
  - specialize (IH 0 m). lia.
  - apply (IH n 0).
  - apply (IH n (S m)).
Qed.

Lemma substring_prefix (s : string) :
  forall m, exists post, s = String.substring 0 m s ++ post.
Proof.
  induction s as [|c s IH]; intros [|m]; simpl; try (eexists; reflexivity).
  destruct (IH m) as [post E]. exists post. now rewrite <- E.
Qed.

Lemma substring_contained (s : string) :
  forall n m, contains s (String.substring n m s).
Proof.
  induction s as [|c s IH]; intros [|n] m.
  - destruct m; [apply contains_empty | apply contains_refl].
  - apply contains_refl.
  - destruct (substring_prefix (String c s) m) as [post E].
    exists EmptyString, post. exact E.
  - destruct (IH n m) as (pre & post & E). exists (String c pre), post.
    simpl. now rewrite <- E.
Qed.

Lemma substring_beyond (s : string) :
  forall n m, String.length s <= n -> String.substring n m s = EmptyString.
Proof.
  induction s as [|c s IH]; intros [|n] [|m]; simpl; intros L;
    try reflexivity; try lia; apply IH; lia.
Qed.

Lemma substring_inside (s : string) :
  forall n m, n + m <= String.length s -> String.length (String.substring n m s) = m.
Proof.
  induction s as [|c s IH]; intros [|n] [|m]; simpl; intros L;
    try reflexivity; try lia.
  - rewrite (IH 0 m); [reflexivity | simpl; lia].
  - apply (IH n 0). lia.
  - apply (IH n (S m)). lia.
Qed.

End PyMore.
Import PyMore.

(** ** The key check: which message for which defect *)

Lemma sk_prefix_no_space (key : string) :
  Py.startswith key "sk-" = true ->
  key <> EmptyString /\ starts_with_space key = false.
Proof.
  unfold Py.startswith. destruct key as [|c key]; cbn [String.prefix]; [discriminate|].
  destruct (ascii_dec "s"%char c) as [<-|]; [|discriminate].
  intros _. split; [discriminate | reflexivity].
Qed.

Lemma check_api_key_nonempty (c : ascii) (key : string) :
  check_api_key (Some (String c key)) =
  if negb (Py.startswith (String c key) "sk-") then
    Raise (ValueError "OPENAI_API_KEY must start with 'sk-'.")
  else if negb (Py.strip (String c key) =? String c key) then
    Raise (ValueError "OPENAI_API_KEY must not contain leading or trailing whitespace.")
  else Return "OPENAI_API_KEY is set and valid.".
Proof. reflexivity. Qed.

(** X1. The three messages of the key check are tried in order: "not set"
    for an absent or empty key, "must start with 'sk-'" for any other key
    without the prefix, and the white space message only for a key that has
    the prefix and ends with white space.  A key with white space in front
    is therefore reported as lacking the prefix. *)
Theorem api_key_error_messages (api_key : option string) :
  (check_api_key api_key =
     Raise (ValueError "OPENAI_API_KEY environment variable is not set.")
   <-> api_key = None \/ api_key = Some EmptyString) /\
  (check_api_key api_key = Raise (ValueError "OPENAI_API_KEY must start with 'sk-'.")
   <-> exists key, api_key = Some key /\ key <> EmptyString /\
                   Py.startswith key "sk-" = false) /\
  (check_api_key api_key =
     Raise (ValueError "OPENAI_API_KEY must not contain leading or trailing whitespace.")
   <-> exists key, api_key = Some key /\ Py.startswith key "sk-" = true /\
                   ends_with_space key = true) /\
  (forall key, starts_with_space key = true ->
     check_api_key (Some key) = Raise (ValueError "OPENAI_API_KEY must start with 'sk-'.")).
Proof.
  assert (forall key, key <> EmptyString -> Py.startswith key "sk-" = false ->
            check_api_key (Some key) =
            Raise (ValueError "OPENAI_API_KEY must start with 'sk-'.")) as Hprefix.
  { intros key N P. destruct key; [congruence|].
    rewrite check_api_key_nonempty, P. reflexivity. }
  split; [|split; [|split]].
  - destruct api_key as [[|c key]|].
    + split; [now right | reflexivity].
    + rewrite check_api_key_nonempty.
      split; [|intros [H | H]; discriminate].
      destruct (Py.startswith _ _); cbn [negb]; [|discriminate].
      destruct (Py.strip _ =? _); discriminate.
    + split; [now left | reflexivity].
  - split.
    + destruct api_key as [key|]; [|discriminate].
      destruct key as [|c key]; [discriminate|].
      rewrite check_api_key_nonempty. intros H.
      exists (String c key). split; [reflexivity|]. split; [discriminate|].
      destruct (Py.startswith (String c key) "sk-"); [|reflexivity].
      cbn [negb] in H. destruct (Py.strip _ =? _); discriminate.
    + intros (key & -> & N & P). now apply Hprefix.
  - split.
    + destruct api_key as [key|]; [|discriminate].
      destruct key as [|c key]; [discriminate|].
      rewrite check_api_key_nonempty. intros H.
      exists (String c key). split; [reflexivity|].
      destruct (Py.startswith (String c key) "sk-") eqn:P; [|discriminate].
      split; [reflexivity|]. cbn [negb] in H.
      destruct (Py.strip (String c key) =? String c key) eqn:S; [discriminate|].
      apply String.eqb_neq in S. apply sk_prefix_no_space in P. destruct P as [_ P].
      destruct (ends_with_space (String c key)) eqn:E; [reflexivity|].
      exfalso. apply S, strip_fixed. now split.
    + intros (key & -> & P & E).
      destruct (sk_prefix_no_space _ P) as [N _].
      destruct key as [|c key]; [congruence|].
      rewrite check_api_key_nonempty, P. cbn [negb].
      destruct (Py.strip (String c key) =? String c key) eqn:S; [|reflexivity].
      apply String.eqb_eq, strip_fixed in S. destruct S as [_ S]. congruence.
  - intros key S. apply Hprefix.
    + intros ->. discriminate.
    + destruct (Py.startswith key "sk-") eqn:P; [|reflexivity].
      apply sk_prefix_no_space in P. destruct P as [_ P]. congruence.
Qed.

Lemma api_key_error_messages_witness :
  check_api_key (Some " sk-key") =
  Raise (ValueError "OPENAI_API_KEY must start with 'sk-'.").
Proof.
  apply (proj2 (proj2 (proj2 (api_key_error_messages None)))). reflexivity.
Defined.

(** ** The excerpt printed after the page is built *)

(** X2. The slice of the content that the notebook prints,
    [content[i:j]], never fails: it is a part of the content of at most
    [j - i] characters, empty when the content has no more than [i]
    characters and of exactly [j - i] characters when the content has at
    least [j]. *)
Theorem content_excerpt_bounds (page : Website) (i j : nat) :
  let excerpt := Py.slice (content page) i j in
  String.length excerpt <= j - i /\
  Py.contains (content page) excerpt /\
  (String.length (content page) <= i -> excerpt = EmptyString) /\
  (i <= j -> j <= String.length (content page) -> String.length excerpt = j - i).
Proof.
  cbn zeta. unfold Py.slice. split; [apply substring_length|].
  split; [apply substring_contained|]. split.
  - apply substring_beyond.
  - intros L1 L2. apply substring_inside. lia.
Qed.

Lemma content_excerpt_bounds_witness :
  Py.slice (content (extract "http://demo" demo_soup)) 500 1000 = EmptyString /\
  String.length (Py.slice (content (extract "http://demo" demo_soup)) 2 6) = 4.
Proof.
  pose proof (content_excerpt_bounds (extract "http://demo" demo_soup) 500 1000) as H1.
  pose proof (content_excerpt_bounds (extract "http://demo" demo_soup) 2 6) as H2.
  cbn zeta in H1, H2. split.
  - apply (proj1 (proj2 (proj2 H1))). vm_compute. lia.
  - apply (proj2 (proj2 (proj2 H2))); vm_compute; lia.
Defined.

(** ** The shape of the content *)

Lemma all_strings_clean (e : PageElement) :
  Forall (fun x => x <> EmptyString /\
                   starts_with_space x = false /\ ends_with_space x = false)
    (_all_strings e true).
Proof.
  apply Forall_forall. intros x I. unfold _all_strings in I.
  apply in_flat_map in I. destruct I as (d & _ & I).
  destruct d as [n c|ty s]; [destruct I|]. cbn [yield_string] in I.
  destruct (interesting_string_type ty); [|destruct I].
  destruct (Py.is_empty (Py.strip s)) eqn:B; [destruct I|].
  destruct I as [<- | []]. split.
  - intros E. rewrite E in B. discriminate.
  - apply strip_clean.
Qed.

Lemma filter_nonblank_nil (l : list string) :
  filter nonblank (map Py.strip l) = [] <-> Forall (fun s => Py.strip s = EmptyString) l.
Proof.
  induction l as [|x l IH]; simpl; [split; [constructor | reflexivity]|].
  unfold nonblank at 1. destruct (Py.is_empty (Py.strip x)) eqn:B; simpl.
  - apply is_empty_true in B. rewrite IH. split.
    + intros F. now constructor.
    + intros F. now inversion F.
  - split; [discriminate|]. intros F. inversion F as [|? ? E _]; subst.
    rewrite E in B. discriminate.
Qed.

(** X3. The content never begins or ends with white space ([strip] would
    leave it unchanged), and it is empty exactly when every text fragment
    left after the removal is blank. *)
Theorem content_has_no_outer_whitespace (url : string) (soup : PageElement) :
  Py.strip (content (extract url soup)) = content (extract url soup) /\
  (content (extract url soup) = EmptyString <->
   Forall (fun s => Py.strip s = EmptyString)
     (text_fragments (decompose_each soup irrelevant_tags))).
Proof.
  split.
  - apply strip_fixed. unfold extract, get_text. cbn [content].
    apply join_clean, all_strings_clean.
  - rewrite <- filter_nonblank_nil.
    unfold extract, get_text, _all_strings, text_fragments. cbn [content].
    rewrite yield_strings_fragments.
    pose proof (all_strings_clean (decompose_each soup irrelevant_tags)) as C.
    unfold _all_strings in C. rewrite yield_strings_fragments in C.
    destruct (filter nonblank _) as [|x l]; [split; reflexivity|].
    split; [|discriminate]. intros E. exfalso.
    inversion C as [|? ? (N & _) _]; subst.
    exact (join_nonempty (" " ++ LF) l N E).
Qed.

Lemma content_has_no_outer_whitespace_witness :
  content (extract "http://scripts"
             (Tag "[document]" [Tag "script" [Text Script "x"];
                                Text NavigableString LF])) = EmptyString.
Proof.
  apply (proj2 (content_has_no_outer_whitespace "http://scripts" _)).
  repeat constructor.
Defined.

(** ** Removing twice *)

Lemma prune_idempotent (names : list string) (e : PageElement) :
  flat_map (prune names) (prune names e) = prune names e.
Proof.
  induction e as [n c IH|ty s] using PageElement_ind; [|reflexivity].
  cbn [prune]. destruct (existsb (String.eqb n) names) eqn:E; [reflexivity|].
  cbn [flat_map prune]. rewrite E, app_nil_r. do 2 f_equal.
  induction IH as [|x l Hx _ IHl]; [reflexivity|].
  cbn [flat_map]. now rewrite flat_map_app, Hx, IHl.
Qed.

(** X4. Removing the irrelevant tags is idempotent: on a document from
    which they have been removed already the loop changes nothing, and the
    content extracted from it is the content of the original. *)
Theorem removal_is_idempotent (url : string) (soup : PageElement) (names : list string) :
  decompose_each (decompose_each soup names) names = decompose_each soup names /\
  content (extract url (decompose_each soup irrelevant_tags)) = content (extract url soup).
Proof.
  assert (forall ns, decompose_each (decompose_each soup ns) ns = decompose_each soup ns)
    as H.
  { intros ns. destruct soup as [n c|ty s]; [|reflexivity].
    cbn [decompose_each]. f_equal.
    induction c as [|x l IHl]; [reflexivity|].
    cbn [flat_map]. now rewrite flat_map_app, prune_idempotent, IHl. }
  split; [apply H|]. unfold extract. cbn [content]. now rewrite H.
Qed.

(** ** Where the title comes from *)

Lemma string_is_text_below (e x : PageElement) :
  string_ e = Some x ->
  (exists type text, x = Text type text) /\ In x (self_and_descendants e).
Proof.
  induction e as [n c IH|ty s] using PageElement_ind; cbn [string_].
  - destruct c as [|child [|second rest]]; try discriminate.
    intros S. inversion IH as [|? ? Hchild _]; subst.
    destruct (Hchild S) as [T I]. split; [exact T|].
    cbn [self_and_descendants flat_map]. right. rewrite app_nil_r. exact I.
  - intros S. injection S as <-. split; [eauto | now left].
Qed.

Lemma self_and_descendants_trans (e t x : PageElement) :
  In t (self_and_descendants e) ->
  In x (self_and_descendants t) ->
  In x (self_and_descendants e).
Proof.
  induction e as [n c IH|ty s] using PageElement_ind; intros T X.
  - destruct T as [<- | T]; [exact X|].
    cbn [self_and_descendants]. right.
    apply in_flat_map in T. destruct T as (y & Y & T).
    apply in_flat_map. exists y. split; [exact Y|].
    rewrite Forall_forall in IH. now apply IH.
  - destruct T as [<- | []]. exact X.
Qed.

Lemma descendants_trans (e t x : PageElement) :
  In t (descendants e) -> In x (self_and_descendants t) -> In x (descendants e).
Proof.
  destruct e as [n c|ty s]; [|intros []]. cbn [descendants]. intros T X.
  apply in_flat_map in T. destruct T as (y & Y & T).
  apply in_flat_map. exists y. split; [exact Y|].
  now apply (self_and_descendants_trans y t x).
Qed.

(** X5. The title is always accounted for by the document: a string title
    is either the sentinel, and then the document has no title tag, or the
    text of a string node below a title tag of the document; the title is
    None only when the document has a title tag that does not hold exactly
    one string. *)
Theorem title_comes_from_document (url : string) (soup : PageElement) :
  match title (extract url soup) with
  | Some t =>
      (t = "No title found" /\ forall c, ~ In (Tag "title" c) (descendants soup)) \/
      (exists c type,
         In (Tag "title" c) (descendants soup) /\
         In (Text type t) (self_and_descendants (Tag "title" c)) /\
         In (Text type t) (descendants soup))
  | None =>
      exists c,
        In (Tag "title" c) (descendants soup) /\
        string_ (Tag "title" c) = None /\
        forall type text, c <> [Text type text]
  end.
Proof.
  unfold extract. cbn [title].
  destruct (find soup "title") as [t|] eqn:F.
  - destruct (find_some _ _ F) as [I [c ->]].
    destruct (string_ (Tag "title" c)) as [x|] eqn:S; cbn [option_map].
    + destruct (string_is_text_below _ S) as [(ty & s & ->) X].
      right. exists c, ty. cbn [text_of]. split; [exact I|]. split; [exact X|].
      exact (descendants_trans soup _ _ I X).
    + exists c. split; [exact I|]. split; [exact S|].
      intros ty s ->. discriminate.
  - left. split; [reflexivity|]. now apply find_none.
Qed.

(** ** From the page to the prompt *)

Lemma fragment_in_content (url : string) (soup : PageElement) (s : string) :
  In s (text_fragments (decompose_each soup irrelevant_tags)) ->
  Py.contains (content (extract url soup)) (Py.strip s).
Proof.
  intros I. destruct (Py.is_empty (Py.strip s)) eqn:B.
  { apply is_empty_true in B. rewrite B. apply contains_empty. }
  unfold extract, get_text, _all_strings. cbn [content].
  rewrite yield_strings_fragments. apply join_contains, filter_In. split.
  - apply in_map. exact I.
  - unfold nonblank. now rewrite B.
Qed.

(** X6. Every text fragment left in the fetched page after the removal
    reaches the model: when the fetch and the parser succeed, the run of
    [summarize_website] calls the completion endpoint with the system
    prompt and a user message that contains the fragment, trimmed. *)
Theorem every_fragment_is_sent
    (W : World) (url : string) (h : list event)
    (markup : string) (soup : PageElement) (s : string) :
  requests_get W h url = Return markup ->
  html_parser W markup = Return soup ->
  In s (text_fragments (decompose_each soup irrelevant_tags)) ->
  exists user_content,
    In (ECreate "gpt-4o-mini"
          [ {| Msg.role := system; Msg.content := system_prompt |};
            {| Msg.role := user; Msg.content := user_content |} ])
       (snd (summarize_website W url h)) /\
    Py.contains user_content (Py.strip s).
Proof.
  intros G P I. exists (user_prompt_for (extract url soup)). split.
  - rewrite summarize_website_run, G, P. cbn zeta.
    destruct (chat_completions_create _ _ _ _); cbn [snd];
      apply in_or_app; right; now left.
  - unfold user_prompt_for. apply contains_app_r. now apply fragment_in_content.
Qed.

Lemma every_fragment_is_sent_witness :
  exists user_content,
    In (ECreate "gpt-4o-mini"
          [ {| Msg.role := system; Msg.content := system_prompt |};
            {| Msg.role := user; Msg.content := user_content |} ])
       (snd (summarize_website demo_world "http://demo" [])) /\
    Py.contains user_content "Hello".
Proof.
  apply (@every_fragment_is_sent demo_world "http://demo" [] _ demo_soup "Hello"
           eq_refl eq_refl).
  cbn. right. now left.
Defined.

(** ** What the content does not depend on *)

Lemma yield_below_tag (strip : bool) (n : string) (l : list PageElement) :
  flat_map (yield_string strip) (flat_map self_and_descendants [Tag n l]) =
  flat_map (yield_string strip) (flat_map self_and_descendants l).
Proof.
  cbn [flat_map self_and_descendants]. rewrite app_nil_r. reflexivity.
Qed.

Lemma yield_same_visible_text (names : list string) (e1 : PageElement) :
  forall e2, same_visible_text e1 e2 ->
  flat_map (yield_string true) (flat_map self_and_descendants (prune names e1)) =
  flat_map (yield_string true) (flat_map self_and_descendants (prune names e2)).
Proof.
  induction e1 as [n c1 IH|ty s] using PageElement_ind; intros e2 A;
    inversion A as [ ? ? ? Hh | ? ? ? Hp | ? ? c2 HF ]; subst.
  - cbn [prune]. destruct (existsb (String.eqb n) names); [reflexivity|].
    rewrite !yield_below_tag. clear A. revert IH.
    induction HF as [|x y l l' Hxy _ IHl]; intros IH; [reflexivity|].
    inversion IH as [|? ? Px Pl]; subst.
    cbn [flat_map]. rewrite !flat_map_app, (Px y Hxy), (IHl Pl). reflexivity.
  - cbn. now rewrite Hh.
  - cbn. rewrite Hp. reflexivity.
Qed.

(** X7. The content depends on the visible text alone: two documents that
    differ only in the white space around their strings and in the text of
    comments and other strings that are not text have the same content. *)
Theorem content_depends_on_visible_text (url : string) (soup soup' : PageElement) :
  same_visible_text soup soup' ->
  content (extract url soup) = content (extract url soup').
Proof.
  intros A. unfold extract, get_text, _all_strings. cbn [content]. f_equal.
  inversion A as [ ? ? ? Hh | ? ? ? Hp | n c1 c2 HF ]; subst; try reflexivity.
  cbn [decompose_each descendants].
  induction HF as [|x y l l' Hxy HF IHl]; [reflexivity|].
  cbn [flat_map]. rewrite !flat_map_app, (yield_same_visible_text _ Hxy).
  f_equal. apply IHl. now constructor.
Qed.

Lemma content_depends_on_visible_text_witness :
  content (extract "http://demo" commented_page) =
  content (extract "http://demo" commented_page_reformatted).
Proof.
  apply content_depends_on_visible_text.
  unfold commented_page, commented_page_reformatted. same_visible_text_tac.
Defined.

(** ** Returning and displaying the summary *)

(** The events one run of [summarize_website] adds to the trace. *)
Lemma summarize_website_events (W : World) (url : string) (h : list event) :
  exists t,
    snd (summarize_website W url h) = (h ++ t)%list /\
    (t = [EGet url] \/
     (exists markup, t = [EGet url; EParse markup]) \/
     (exists markup website,
        t = [EGet url; EParse markup; EPrompt website;
             ECreate "gpt-4o-mini" (message_for website)])).
Proof.
  rewrite summarize_website_run.
  destruct (requests_get W h url) as [markup|e]; [|eexists; split; [reflexivity|]; now left].
  destruct (html_parser W markup) as [soup|e];
    [|eexists; split; [reflexivity|]; right; left; eauto].
  cbn zeta. exists [EGet url; EParse markup; EPrompt (extract url soup);
                    ECreate "gpt-4o-mini" (message_for (extract url soup))].
  split; [|right; right; eauto].
  destruct (chat_completions_create _ _ _ _); cbn [snd];
    rewrite <- app_assoc; reflexivity.
Qed.

(** X8. [summarize_website] returns a summary exactly when the fetch, the
    parser and the completion call succeed and the first choice has text;
    the summary is that text trimmed, whatever the other choices are, and
    so never begins or ends with white space. *)
Theorem summarize_website_returns_iff
    (W : World) (url : string) (h : list event) (summary : string) :
  (fst (summarize_website W url h) = Return summary <->
   exists markup soup response choice rest text,
     requests_get W h url = Return markup /\
     html_parser W markup = Return soup /\
     chat_completions_create W
       (h ++ [EGet url; EParse markup; EPrompt (extract url soup)])%list
       "gpt-4o-mini" (message_for (extract url soup)) = Return response /\
     OpenAI.choices response = Some (choice :: rest) /\
     OpenAI.content (OpenAI.message choice) = Some text /\
     summary = Py.strip text) /\
  (fst (summarize_website W url h) = Return summary -> Py.strip summary = summary).
Proof.
  assert (fst (summarize_website W url h) = Return summary ->
          exists markup soup response choice rest text,
            requests_get W h url = Return markup /\
            html_parser W markup = Return soup /\
            chat_completions_create W
              (h ++ [EGet url; EParse markup; EPrompt (extract url soup)])%list
              "gpt-4o-mini" (message_for (extract url soup)) = Return response /\
            OpenAI.choices response = Some (choice :: rest) /\
            OpenAI.content (OpenAI.message choice) = Some text /\
            summary = Py.strip text) as Hfwd.
  { rewrite summarize_website_run.
    destruct (requests_get W h url) as [markup|e] eqn:G; [|discriminate].
    destruct (html_parser W markup) as [soup|e] eqn:P; [|discriminate]. cbn zeta.
    destruct (chat_completions_create _ _ _ _) as [response|e] eqn:C; [|discriminate].
    cbn [fst]. unfold first_choice_stripped.
    destruct (OpenAI.choices response) as [[|choice rest]|] eqn:Ch; try discriminate.
    destruct (OpenAI.content (OpenAI.message choice)) as [text|] eqn:T; [|discriminate].
    intros H. injection H as <-.
    exists markup, soup, response, choice, rest, text.
    repeat split; assumption. }
  split; [split; [exact Hfwd|]|].
  - intros (markup & soup & response & choice & rest & text & G & P & C & Ch & T & ->).
    rewrite summarize_website_run, G, P. cbn zeta. rewrite C. cbn [fst].
    unfold first_choice_stripped. now rewrite Ch, T.
  - intros H. destruct (Hfwd H) as (_ & _ & _ & _ & _ & text & _ & _ & _ & _ & _ & ->).
    apply strip_idempotent.
Qed.

Lemma summarize_website_returns_iff_witness :
  Py.strip "A short summary." = "A short summary.".
Proof.
  apply (proj2 (summarize_website_returns_iff demo_world "http://demo" []
                  "A short summary.")).
  reflexivity.
Defined.

(** X10. [display_summary] displays exactly once when the summary is
    obtained, as the last thing it does, a markdown text made of the heading
    with the URL, an empty line and the summary; when [summarize_website]
    raises, it raises the same exception and displays nothing. *)
Theorem display_summary_shows_once (W : World) (url : string) (h : list event) :
  exists t,
    snd (display_summary W url h) = (h ++ t)%list /\
    match fst (summarize_website W url h) with
    | Return summary =>
        fst (display_summary W url h) = Return tt /\
        filter is_display t =
          [EDisplay ("### Summary of " ++ url ++ LF ++ LF ++ summary)] /\
        exists before,
          t = (before ++ [EDisplay ("### Summary of " ++ url ++ LF ++ LF ++ summary)])%list
    | Raise e =>
        fst (display_summary W url h) = Raise e /\
        filter is_display t = []
    end.
Proof.
  destruct (summarize_website_events W url h) as (t & E & Hshape).
  assert (filter is_display t = []) as D.
  { destruct Hshape as [-> | [[markup ->] | (markup & website & ->)]]; reflexivity. }
  unfold display_summary, bind, display, call.
  destruct (summarize_website W url h) as [[summary|e] h'] eqn:R; cbn [fst snd] in *.
  - exists (t ++ [EDisplay ("### Summary of " ++ url ++ LF ++ LF ++ summary)])%list.
    subst h'. split; [now rewrite app_assoc|]. split; [reflexivity|].
    split; [|eauto]. rewrite filter_app, D. reflexivity.
  - exists t. subst h'. split; [reflexivity|]. split; [reflexivity | exact D].
Qed.

(** ** The order of the loop *)

Lemma existsb_permutation {A : Type} (f : A -> bool) (l l' : list A) :
  Permutation l l' -> existsb f l = existsb f l'.
Proof.
  induction 1 as [|x l l' _ IH|x y l|l l' l'' _ IH1 _ IH2]; simpl.
  - reflexivity.
  - now rewrite IH.
  - now rewrite !orb_assoc, (orb_comm (f y)).
  - now rewrite IH1.
Qed.

Lemma take_out_none_list (l : list Objects.Obj) :
  flat_map (Objects.take_out (fun _ => false)) l = l.
Proof.
  induction l as [|x l IH]; simpl; [reflexivity|].
  now rewrite take_out_none, IH.
Qed.

Lemma decompose_fold_text (ts : list Objects.Obj) (i : nat) (ty : string_type) (s : string) :
  fold_left (fun r t => Objects.decompose t r) ts (Objects.OText i ty s) =
  Objects.OText i ty s.
Proof. induction ts as [|t ts IH]; simpl; [reflexivity | exact IH]. Qed.

(** X11. The result of the removal loop does not depend on the order in
    which the tags found are decomposed: decomposing them in any other
    order (a tag inside another one first or last) leaves the same
    document. *)
Theorem decompose_order_irrelevant
    (root : Objects.Obj) (names : list string) (ts : list Objects.Obj) :
  Permutation (Objects.find_all root names) ts ->
  fold_left (fun r t => Objects.decompose t r) ts root =
  Objects.decompose_loop root names.
Proof.
  intros P. unfold Objects.decompose_loop.
  destruct root as [i n c|i ty s]; [|now rewrite !decompose_fold_text].
  rewrite <- (take_out_none_list c) at 1 3.
  rewrite !decompose_fold. f_equal.
  apply take_out_ext_list. intros x. cbn [orb].
  symmetry. now apply existsb_permutation.
Qed.

Lemma decompose_order_irrelevant_witness :
  fold_left (fun r t => Objects.decompose t r)
    (rev (Objects.find_all (Objects.objects_of gallery_page) irrelevant_tags))
    (Objects.objects_of gallery_page) =
  Objects.decompose_loop (Objects.objects_of gallery_page) irrelevant_tags.
Proof.
  apply decompose_order_irrelevant, Permutation_rev.
Defined.

(** ** Nothing is added to the text *)

Lemma text_after_prune (names : list string) (x : PageElement) (e : PageElement) :
  In x (flat_map self_and_descendants (prune names e)) ->
  is_tag x = false ->
  In x (self_and_descendants e).
Proof.
  intros I T. revert I.
  induction e as [n c IH|ty s] using PageElement_ind; cbn [prune].
  - destruct (existsb (String.eqb n) names); [intros []|].
    cbn [flat_map self_and_descendants]. rewrite app_nil_r.
    intros [<- | I]; [discriminate|]. right.
    apply in_flat_map in I. destruct I as (y & Y & I).
    apply in_flat_map in Y. destruct Y as (z & Z & Y).
    apply in_flat_map. exists z. split; [exact Z|].
    rewrite Forall_forall in IH. apply (IH z Z).
    apply in_flat_map. now exists y.
  - cbn [flat_map self_and_descendants app]. trivial.
Qed.

(** X12. The content is made of text of the document and of nothing else:
    it is the join of strings each of which is the trimmed, non-empty text
    of an ordinary string node of the document that was parsed. *)
Theorem content_is_made_of_document_text (url : string) (soup : PageElement) :
  exists lines,
    content (extract url soup) = Py.join (" " ++ LF) lines /\
    Forall (fun line =>
              line <> EmptyString /\
              exists type text,
                In (Text type text) (descendants soup) /\
                interesting_string_type type = true /\
                line = Py.strip text) lines.
Proof.
  exists (_all_strings (decompose_each soup irrelevant_tags) true).
  split; [reflexivity|]. apply Forall_forall. intros line I.
  unfold _all_strings in I. apply in_flat_map in I. destruct I as (d & D & I).
  destruct d as [n c|ty s]; [destruct I|]. cbn [yield_string] in I.
  destruct (interesting_string_type ty) eqn:T; [|destruct I].
  destruct (Py.is_empty (Py.strip s)) eqn:B; [destruct I|].
  destruct I as [<- | []]. split.
  - intros E. rewrite E in B. discriminate.
  - exists ty, s. split; [|split; [exact T | reflexivity]].
    destruct soup as [n c|ty' s']; [|destruct D].
    cbn [decompose_each descendants] in *.
    apply in_flat_map in D. destruct D as (y & Y & D).
    apply in_flat_map in Y. destruct Y as (z & Z & Y).
    apply in_flat_map. exists z. split; [exact Z|].
    apply (text_after_prune irrelevant_tags); [|reflexivity].
    apply in_flat_map. now exists y.
Qed.
